(** * tools/ai_autobuilder.py: the build -> diagnose -> patch -> rebuild loop

    A shallow embedding of [src/tools/ai_autobuilder.py] and the properties
    of its fix loop, model client, diff extractor, patch applier and context
    collector.

    Text is a [string]: every character is a code point below 256, so the
    Python [str] operations are modelled on the Latin-1 range.  What a child
    process prints and what a file holds are bytes, also a [string]; the
    codec of the locale, which turns the one into the other, belongs to the
    environment. *)

From Stdlib Require Import String Ascii List ZArith NArith Lia Bool.
From Stdlib Require Import Numbers.DecimalString.
Import ListNotations.

Local Open Scope string_scope.

(** ** Python string operations *)

Module PyStr.

Definition nl : ascii := "010"%char.
Definition cr : ascii := "013"%char.

(** [str.isspace] on one character (the set [str.strip()] removes). *)
Definition isspace (c : ascii) : bool :=
  let n := N_of_ascii c in
  (((9 <=? n) && (n <=? 13)) || ((28 <=? n) && (n <=? 32))
   || (n =? 133) || (n =? 160))%N.

(** The boundaries [str.splitlines] recognises. *)
Definition islinebreak (c : ascii) : bool :=
  let n := N_of_ascii c in
  (((10 <=? n) && (n <=? 13)) || ((28 <=? n) && (n <=? 30)) || (n =? 133))%N.

Definition is_empty (s : string) : bool :=
  match s with EmptyString => true | String _ _ => false end.

(** [s[n:]] for [0 <= n]. *)
Fixpoint drop (n : nat) (s : string) : string :=
  match n, s with
  | O, _ => s
  | S _, EmptyString => EmptyString
  | S n', String _ s' => drop n' s'
  end.

(** [s[:n]] for [0 <= n]. *)
Fixpoint take (n : nat) (s : string) : string :=
  match n, s with
  | S n', String c s' => String c (take n' s')
  | _, _ => EmptyString
  end.

(** [s[-n:]] for [0 < n]: the last [n] characters. *)
Definition last_chars (n : nat) (s : string) : string :=
  drop (String.length s - n) s.

Fixpoint lstrip (s : string) : string :=
  match s with
  | EmptyString => EmptyString
  | String c s' => if isspace c then lstrip s' else s
  end.

Fixpoint rstrip (s : string) : string :=
  match s with
  | EmptyString => EmptyString
  | String c s' =>
      let r := rstrip s' in
      if is_empty r && isspace c then EmptyString else String c r
  end.

(** [s.strip()] *)
Definition strip (s : string) : string := rstrip (lstrip s).

(** [s.splitlines()] *)
Fixpoint splitlines (s : string) : list string :=
  match s with
  | EmptyString => []
  | String c s' =>
      if islinebreak c then
        match s' with
        | String d s'' =>
            if Ascii.eqb c cr && Ascii.eqb d nl
            then EmptyString :: splitlines s''
            else EmptyString :: splitlines s'
        | EmptyString => [EmptyString]
        end
      else
        match splitlines s' with
        | [] => [String c EmptyString]
        | l :: ls => String c l :: ls
        end
  end.

(** [sep.join(parts)] *)
Fixpoint join (sep : string) (parts : list string) : string :=
  match parts with
  | [] => EmptyString
  | [p] => p
  | p :: ps => p ++ sep ++ join sep ps
  end.

(** The newline translation of text mode: a carriage return, with the
    newline that follows it if one does, becomes a newline. *)
Fixpoint universal_newlines (s : string) : string :=
  match s with
  | EmptyString => EmptyString
  | String c s' =>
      if Ascii.eqb c cr then
        match s' with
        | String d s'' =>
            if Ascii.eqb d nl then String nl (universal_newlines s'')
            else String nl (universal_newlines s')
        | EmptyString => String nl EmptyString
        end
      else String c (universal_newlines s')
  end.

(** [xs[-n:]] for [0 < n]. *)
Definition last_items {A} (n : nat) (xs : list A) : list A :=
  skipn (List.length xs - n) xs.

(** [needle in hay] *)
Fixpoint contains (needle hay : string) : bool :=
  prefix needle hay ||
  match hay with
  | EmptyString => false
  | String _ hay' => contains needle hay'
  end.

(** [str(n)] for an integer. *)
Definition str_of_Z (z : Z) : string := NilZero.string_of_int (Z.to_int z).

(** [int(s)] on a string: surrounding whitespace, an optional sign, decimal
    digits with single underscores between them, at most 4300 digits;
    [None] is ValueError.  The whitespace [int] skips is tab to carriage
    return, the space, and the two spaces above 127 (which it first rewrites
    to a space); the separators 28 to 31, which [str.strip] removes, are
    not part of it. *)
Definition int_isspace (c : ascii) : bool :=
  let n := N_of_ascii c in
  (((9 <=? n) && (n <=? 13)) || (n =? 32) || (n =? 133) || (n =? 160))%N.

Fixpoint int_lstrip (s : string) : string :=
  match s with
  | EmptyString => EmptyString
  | String c s' => if int_isspace c then int_lstrip s' else s
  end.

Fixpoint int_rstrip (s : string) : string :=
  match s with
  | EmptyString => EmptyString
  | String c s' =>
      let r := int_rstrip s' in
      if is_empty r && int_isspace c then EmptyString else String c r
  end.

Definition digit_of (c : ascii) : option Z :=
  let n := N_of_ascii c in
  if ((48 <=? n) && (n <=? 57))%N then Some (Z.of_N (n - 48)) else None.

Fixpoint int_digits (s : string) (acc : Z) (after_digit : bool) : option Z :=
  match s with
  | EmptyString => if after_digit then Some acc else None
  | String c s' =>
      match digit_of c with
      | Some d => int_digits s' (10 * acc + d)%Z true
      | None =>
          if Ascii.eqb c "_"%char && after_digit then int_digits s' acc false
          else None
      end
  end.

Fixpoint count_digits (s : string) : N :=
  match s with
  | EmptyString => 0%N
  | String c s' =>
      ((match digit_of c with Some _ => 1 | None => 0 end) + count_digits s')%N
  end.

(** [sys.get_int_max_str_digits()] as the interpreter starts with. *)
Definition max_str_digits : N := 4300.

Definition py_int (s : string) : option Z :=
  let t := int_rstrip (int_lstrip s) in
  if (max_str_digits <? count_digits t)%N then None
  else
    match t with
    | String "+"%char r => int_digits r 0%Z false
    | String "-"%char r => option_map Z.opp (int_digits r 0%Z false)
    | r => int_digits r 0%Z false
    end.

(** The double-quote character. *)
Definition dq : string := String (ascii_of_nat 34) EmptyString.
Definition backslash : string := String (ascii_of_nat 92) EmptyString.

Definition hex_digit (n : N) : string :=
  String (ascii_of_N (if (n <? 10)%N then 48 + n else 87 + n)%N) EmptyString.

(** One character of [json.dumps(s)] (ensure_ascii). *)
Definition json_escape_char (c : ascii) : string :=
  let n := N_of_ascii c in
  if (n =? 34)%N then backslash ++ dq
  else if (n =? 92)%N then backslash ++ backslash
  else if (n =? 10)%N then backslash ++ "n"
  else if (n =? 13)%N then backslash ++ "r"
  else if (n =? 9)%N then backslash ++ "t"
  else if (n =? 8)%N then backslash ++ "b"
  else if (n =? 12)%N then backslash ++ "f"
  else if ((n <? 32) || (126 <? n))%N
       then backslash ++ "u00" ++ hex_digit (n / 16) ++ hex_digit (n mod 16)
  else String c EmptyString.

Fixpoint json_escape (s : string) : string :=
  match s with
  | EmptyString => EmptyString
  | String c s' => json_escape_char c ++ json_escape s'
  end.

(** [json.dumps(s)] for a string [s]. *)
Definition json_dumps (s : string) : string := dq ++ json_escape s ++ dq.

(** Truthiness of an optional string: [None] and [""] are falsy. *)
Definition truthy (v : option string) : bool :=
  match v with
  | None => false
  | Some s => negb (is_empty s)
  end.

End PyStr.

Import PyStr.

(** ** The regular expression of [extract_unified_diff]

    Only the constructs the pattern uses: a line-start anchor (under the
    MULTILINE flag), literal characters, and [[^\n]+]. *)

Module Re.

Inductive atom : Type :=
| Bol                    (* ^ with re.MULTILINE *)
| Chr (c : ascii)        (* a literal character *)
| NotNlPlus.             (* [^\n]+ *)

Fixpoint lit (s : string) : list atom :=
  match s with
  | EmptyString => []
  | String c s' => Chr c :: lit s'
  end.

(** [[^\n]+] followed by the rest of the pattern [k]: at least one
    character other than newline, the longest run first, then shorter ones. *)
Fixpoint plus_loop (k : string -> bool) (s : string) : bool :=
  match s with
  | String d s' =>
      if Ascii.eqb d nl then false
      else plus_loop k s' || k s'
  | EmptyString => false
  end.

(** Does pattern [p] match at the head of [s]?  [bol] tells whether the
    position is the start of the text or follows a newline. *)
Fixpoint match_here (p : list atom) (bol : bool) (s : string) {struct p} : bool :=
  match p with
  | [] => true
  | Bol :: p' => bol && match_here p' bol s
  | Chr c :: p' =>
      match s with
      | String d s' => Ascii.eqb c d && match_here p' (Ascii.eqb d nl) s'
      | EmptyString => false
      end
  | NotNlPlus :: p' => plus_loop (match_here p' false) s
  end.

(** [re.search]: the leftmost position at which the pattern matches;
    [i] is the index of the head of [s] in the whole text. *)
Fixpoint search_from (p : list atom) (bol : bool) (s : string) (i : nat)
  : option nat :=
  if match_here p bol s then Some i
  else match s with
       | EmptyString => None
       | String c s' => search_from p (Ascii.eqb c nl) s' (S i)
       end.

(** [m = re.search(p, text)], reduced to [m.start()]. *)
Definition search (p : list atom) (text : string) : option nat :=
  search_from p true text 0.

End Re.

(** ** Diff extractor *)

(** [r'(?ms)^--- [^\n]+\n\+\+\+ [^\n]+\n'] *)
Definition header_re : list Re.atom :=
  Re.Bol :: Re.lit "--- " ++ Re.NotNlPlus :: Re.Chr nl
         :: Re.lit "+++ " ++ [Re.NotNlPlus; Re.Chr nl].

(** The second half of the pattern: the [+++] line. *)
Definition plus_re : list Re.atom :=
  Re.lit "+++ " ++ [Re.NotNlPlus; Re.Chr nl].

Definition extract_unified_diff (text : string) : option string :=
  match Re.search header_re text with
  | None => None
  | Some start => Some (strip (drop start text))
  end.

(** *** The extractor as the specification words it

    The text is cut into lines at every newline; a header line is the marker
    followed by a non-empty rest of line. *)

Fixpoint split_nl (s : string) : list string :=
  match s with
  | EmptyString => [EmptyString]
  | String c s' =>
      if Ascii.eqb c nl then EmptyString :: split_nl s'
      else match split_nl s' with
           | l :: ls => String c l :: ls
           | [] => [String c EmptyString]
           end
  end.

Definition is_header (mark line : string) : bool :=
  prefix mark line && (String.length mark <? String.length line)%nat.

(** Offset of the first line [--- <token>] whose next line is
    [+++ <token>]; [off] is the offset of the head of [ls]. *)
Fixpoint spec_find_pair (ls : list string) (off : nat) : option nat :=
  match ls with
  | l1 :: tl =>
      match tl with
      | l2 :: _ =>
          if is_header "--- " l1 && is_header "+++ " l2 then Some off
          else spec_find_pair tl (off + String.length l1 + 1)
      | [] => None
      end
  | [] => None
  end.

Definition spec_extract (text : string) : option string :=
  option_map (fun off => strip (drop off text))
             (spec_find_pair (split_nl text) 0).

(** The same, where the [+++] line must itself be ended by a newline
    (so that a further piece follows it in [split_nl]). *)
Fixpoint spec_find_pair_nl (ls : list string) (off : nat) : option nat :=
  match ls with
  | l1 :: tl =>
      match tl with
      | l2 :: _ :: _ =>
          if is_header "--- " l1 && is_header "+++ " l2 then Some off
          else spec_find_pair_nl tl (off + String.length l1 + 1)
      | _ => None
      end
  | [] => None
  end.

Definition spec_extract_nl (text : string) : option string :=
  option_map (fun off => strip (drop off text))
             (spec_find_pair_nl (split_nl text) 0).

(** The first line of [s] and, when a newline ends it, the text after. *)
Fixpoint span_line (s : string) : string * option string :=
  match s with
  | EmptyString => (EmptyString, None)
  | String c s' =>
      if Ascii.eqb c nl then (EmptyString, Some s')
      else let (l, r) := span_line s' in (String c l, r)
  end.

Fixpoint has_nonspace (s : string) : bool :=
  match s with
  | EmptyString => false
  | String c s' => negb (isspace c) || has_nonspace s'
  end.

Fixpoint no_newline (s : string) : bool :=
  match s with
  | EmptyString => true
  | String c s' => negb (Ascii.eqb c nl) && no_newline s'
  end.

(** ** The world outside the program

    The build, git, the model backends and the file system are oracles that
    answer from the history of effects so far, so that every call may be
    answered differently. *)

Inductive stream : Type := Stdout | Stderr.

(** A finished child process: exit code and the bytes it printed, in order. *)
Record proc : Type := {
  returncode : Z;
  output : list (stream * string)
}.

(** What a pipe with [stderr=subprocess.STDOUT] collects. *)
Definition merged (p : proc) : string :=
  fold_right (fun ch acc => snd ch ++ acc) EmptyString (output p).

(** What the child printed on one of its two streams. *)
Definition printed_on (s : stream) (p : proc) : string :=
  fold_right
    (fun chunk acc =>
       match s, fst chunk with
       | Stdout, Stdout | Stderr, Stderr => snd chunk ++ acc
       | _, _ => acc
       end)
    EmptyString (output p).

(** What [subprocess.run] returns; [stdout] is [None] unless captured, and
    with [text=True] it is text. *)
Record CompletedProcess : Type := {
  cp_returncode : Z;
  cp_stdout : option string
}.

Definition stdout (cp : CompletedProcess) : string :=
  match cp_stdout cp with Some s => s | None => EmptyString end.

(** The chat-completion request of [_call_openai]. *)
Record request : Type := {
  req_model : string;
  req_prompt : string;
  req_authorization : string;
  req_organization : option string
}.

(** The HTTP response, with what the code reads from it: [err_dump] is
    [json.dumps(err)], [err_dump_indent] is [json.dumps(err, indent=2)],
    [content] is [data["choices"][0]["message"]["content"]] ([None] when the
    body has no such field). *)
Record response : Type := {
  status_code : Z;
  err_dump : string;
  err_dump_indent : string;
  content : option string
}.

Inductive exn : Type :=
| KeyError (key : string)
| ValueError (arg : string)
| RuntimeError (msg : string)
| OSError (cmd : string)             (* the child process could not be started *)
| UnicodeDecodeError (data : string) (* bytes that are no text in the locale's encoding *)
| CalledProcessError (cmd : string) (code : Z)
| RequestException                   (* requests.post: no response *)
| ResponseShapeError.                (* the body is not the expected JSON *)

Inductive event : Type :=
| EvPrint (msg : string)
| EvPrintExn (label : string) (e : exn)
| EvRun (cmd : string) (capture : bool)        (* subprocess.run via run() *)
| EvLogOpen                                    (* open("build.log", "wb") *)
| EvBuild (cmd : string) (out : string)        (* Popen(BUILD_CMD), lines copied *)
| EvCallLLM (prompt : string)                  (* entry of call_llm *)
| EvPost (req : request)                       (* requests.post *)
| EvLlama (cmd : string)                       (* the llama.cpp subprocess *)
| EvTmpWrite (name contents : string)          (* the temporary .patch file *)
| EvTmpUnlink (name : string).

Record Env : Type := {
  environ : string -> option string;           (* os.environ *)
  resolve : string -> string;                  (* pathlib.Path(p).resolve() *)
  git_dir_exists : list event -> bool;         (* (PROJECT_ROOT / ".git").exists() *)
  initial_build_log : option string;           (* bytes of build.log before the run *)
  (* bytes.decode() in the locale's encoding; None is UnicodeDecodeError *)
  decode : string -> option string;
  (* bytes.decode(errors="ignore") in the locale's encoding *)
  decode_ignore : string -> string;
  tmp_name : list event -> string;             (* name of the NamedTemporaryFile *)
  (* sh -c cmd in directory cwd; None when the child cannot be started *)
  sh : list event -> option string -> string -> option proc;
  (* requests.post; None when no response arrives *)
  post : list event -> request -> option response
}.

(** The bytes of build.log after the effects in [h]; [None] when absent. *)
Fixpoint log_after (h : list event) (cur : option string) : option string :=
  match h with
  | [] => cur
  | EvLogOpen :: h' => log_after h' (Some EmptyString)
  | EvBuild _ out :: h' => log_after h' (Some out)
  | _ :: h' => log_after h' cur
  end.

Definition build_log (env : Env) (h : list event) : option string :=
  log_after h (initial_build_log env).

(** ** Effects: history in, result and new events out *)

Inductive result (A : Type) : Type :=
| Ret (a : A)
| Raise (e : exn).
Arguments Ret {A} a.
Arguments Raise {A} e.

Definition M (A : Type) : Type := list event -> result A * list event.

Definition ret {A} (a : A) : M A := fun _ => (Ret a, []).
Definition raise {A} (e : exn) : M A := fun _ => (Raise e, []).
Definition emit (ev : event) : M unit := fun _ => (Ret tt, [ev]).
Definition history : M (list event) := fun h => (Ret h, []).

Definition bind {A B} (m : M A) (f : A -> M B) : M B :=
  fun h =>
    match m h with
    | (Ret a, e1) => let (r, e2) := f a (h ++ e1)%list in (r, (e1 ++ e2)%list)
    | (Raise e, e1) => (Raise e, e1)
    end.

(** [try: m  except Exception as e: handler e] *)
Definition try_except {A} (m : M A) (handler : exn -> M A) : M A :=
  fun h =>
    match m h with
    | (Ret a, e1) => (Ret a, e1)
    | (Raise e, e1) => let (r, e2) := handler e (h ++ e1)%list in (r, (e1 ++ e2)%list)
    end.

(** [try: m  finally: fin] *)
Definition finally {A} (m : M A) (fin : M unit) : M A :=
  fun h =>
    let (r, e1) := m h in
    match fin (h ++ e1)%list with
    | (Ret _, e2) => (r, (e1 ++ e2)%list)
    | (Raise e, e2) => (Raise e, (e1 ++ e2)%list)
    end.

Declare Scope py_scope.
Delimit Scope py_scope with py.
Notation "x <- m ;; k" := (bind m (fun x => k))
  (at level 61, m at next level, right associativity) : py_scope.
Notation "m ;; k" := (bind m (fun _ => k))
  (at level 61, right associativity) : py_scope.

(** [print(a, b, ...)] *)
Definition print (parts : list string) : M unit :=
  emit (EvPrint (join " " parts)).

(** ** Module-level configuration *)

Record Config : Type := {
  PROVIDER : string;
  OPENAI_MODEL : string;
  FALLBACK_PROVIDER : string;
  LLAMA_CPP_BIN : string;
  LLAMA_MODEL_PATH : string;
  MAX_ATTEMPTS : Z;
  BUILD_CMD : string;
  PROJECT_ROOT : string
}.

(** [os.getenv(key, default)] *)
Definition getenv (env : Env) (key default : string) : string :=
  match environ env key with Some v => v | None => default end.

(** Lines 4-13: the constants read from the environment at import time.
    Only [int(...)] can raise. *)
Definition load_config (env : Env) : result Config :=
  let attempts := getenv env "AI_BUILDER_ATTEMPTS" "3" in
  match py_int attempts with
  | None => Raise (ValueError attempts)
  | Some n =>
      Ret {| PROVIDER := getenv env "PROVIDER" "openai";
             OPENAI_MODEL := getenv env "OPENAI_MODEL" "gpt-4o-mini";
             FALLBACK_PROVIDER := getenv env "FALLBACK_PROVIDER" "llama";
             LLAMA_CPP_BIN := getenv env "LLAMA_CPP_BIN" "llama-cli";
             LLAMA_MODEL_PATH :=
               getenv env "MODEL_PATH" "models/Meta-Llama-3-8B-Instruct.Q4_K_M.gguf";
             MAX_ATTEMPTS := n;
             BUILD_CMD := getenv env "BUILD_CMD" "./gradlew assembleDebug --stacktrace";
             PROJECT_ROOT := resolve env (getenv env "PROJECT_ROOT" ".") |}
  end.

(** [PROMPT.format(repo_tree=..., recent_diff=..., build_cmd=..., build_tail=...)] *)
Definition PROMPT_format (repo_tree recent_diff build_cmd build_tail : string)
  : string :=
  "You are an automated build fixer. You are working in a Git repository.
Goal: Fix build/test failures by editing files minimally.

Repository file list (truncated):
" ++ repo_tree ++ "

Recent changes (last few commits diff):
" ++ recent_diff ++ "

Build command:
" ++ build_cmd ++ "

Build log tail (last 400 lines):
" ++ build_tail ++ "

Constraints:
- Return ONLY a valid unified diff starting with ---/+++ and @@ hunks.
- Keep edits minimal and safe.
- If build config changes are needed (e.g., Gradle/CMake), include them in the diff.
- Prefer updating deprecated APIs or SDK versions if that's the cause.
- Do NOT modify unrelated files.

Now output the unified diff to fix the error.
".

(** How the loop of [main] is left. *)
Inductive loop_exit : Type :=
| LoopDone                 (* the condition failed or [break]: fall through *)
| Returned (code : Z)      (* [return code] from inside the loop *)
| OutOfFuel.               (* the model's iteration bound was too small *)

Section Program.

Variable cfg : Config.
Variable env : Env.

Local Open Scope py_scope.

(** What [subprocess.run(..., text=True, stdout=PIPE, stderr=STDOUT)] makes
    of the bytes a child printed: they are decoded in the locale's encoding,
    which can fail, and the newlines are translated. *)
Definition captured_text (p : proc) : option string :=
  option_map universal_newlines (decode env (merged p)).

(** [run(cmd, cwd=PROJECT_ROOT, capture, check)]: the output is collected and
    decoded before the exit code is looked at. *)
Definition run (cmd : string) (capture check : bool) : M CompletedProcess :=
  h <- history ;;
  emit (EvRun cmd capture) ;;
  match sh env h (Some (PROJECT_ROOT cfg)) cmd with
  | None => raise (OSError cmd)
  | Some p =>
      if capture then
        match captured_text p with
        | None => raise (UnicodeDecodeError (merged p))
        | Some text =>
            if check && negb (returncode p =? 0)%Z
            then raise (CalledProcessError cmd (returncode p))
            else ret {| cp_returncode := returncode p; cp_stdout := Some text |}
        end
      else
        if check && negb (returncode p =? 0)%Z
        then raise (CalledProcessError cmd (returncode p))
        else ret {| cp_returncode := returncode p; cp_stdout := None |}
  end.

(** [git(args..., capture)] *)
Definition git (args : list string) (capture : bool) : M CompletedProcess :=
  run ("git " ++ join " " args) capture false.

Definition ls_files_cmd : string := "git ls-files || true".

Definition get_repo_tree : M string :=
  out <- run ls_files_cmd true false ;;
  let files := splitlines (strip (stdout out)) in
  ret (join (String nl "") (firstn 220 files)).

Definition get_recent_diff : M string :=
  out <- run "git log --oneline -n 1 || true" true false ;;
  if String.eqb (strip (stdout out)) "" then ret "(no recent commits)"
  else
    diff <- run "git diff --unified=2 -M -C HEAD~5..HEAD || true" true false ;;
    ret (last_chars (N.to_nat 8000) (stdout diff)).

(** [p.read_text(errors="ignore")]: the bytes of the file, decoded with
    what does not decode left out, newlines translated. *)
Definition read_text_ignore (bytes : string) : string :=
  universal_newlines (decode_ignore env bytes).

(** [tail_build_log(lines=400)] *)
Definition tail_build_log : M string :=
  h <- history ;;
  match build_log env h with
  | None => ret "(no build log)"
  | Some bytes =>
      let data := splitlines (read_text_ignore bytes) in
      ret (join (String nl "") (last_items 400 data))
  end.

Definition run_build : M Z :=
  emit EvLogOpen ;;
  h <- history ;;
  match sh env h (Some (PROJECT_ROOT cfg)) (BUILD_CMD cfg) with
  | None => raise (OSError (BUILD_CMD cfg))
  | Some p =>
      emit (EvBuild (BUILD_CMD cfg) (merged p)) ;;
      ret (returncode p)
  end.

(** The payload and headers [_call_openai] builds. *)
Definition openai_request (key prompt : string) : request :=
  {| req_model := OPENAI_MODEL cfg;
     req_prompt := prompt;
     req_authorization := "Bearer " ++ key;
     req_organization :=
       if truthy (environ env "OPENAI_ORG")
       then environ env "OPENAI_ORG" else None |}.

Definition _call_openai (prompt : string) : M string :=
  match environ env "OPENAI_API_KEY" with
  | None => raise (KeyError "OPENAI_API_KEY")
  | Some key =>
      let req := openai_request key prompt in
      h <- history ;;
      emit (EvPost req) ;;
      match post env h req with
      | None => raise RequestException
      | Some r =>
          if (400 <=? status_code r)%Z then
            print ["OpenAI API error:"; err_dump_indent r] ;;
            raise (RuntimeError ("openai_error:" ++ err_dump r))
          else
            match content r with
            | None => raise ResponseShapeError
            | Some text => ret text
            end
      end
  end.

Definition llama_cmd (prompt : string) : string :=
  LLAMA_CPP_BIN cfg ++ " -m " ++ dq ++ LLAMA_MODEL_PATH cfg ++ dq
    ++ " -p " ++ json_dumps prompt ++ " -n 2048 --temp 0.2".

Definition _call_llama (prompt : string) : M string :=
  let cmd := llama_cmd prompt in
  h <- history ;;
  emit (EvLlama cmd) ;;
  match sh env h None cmd with
  | None => raise (OSError cmd)
  | Some out =>
      match captured_text out with
      | None => raise (UnicodeDecodeError (merged out))
      | Some text =>
          if negb (returncode out =? 0)%Z then
            print ["llama.cpp error output:" ++ String nl ""; text] ;;
            raise (RuntimeError "llama_failed")
          else ret text
      end
  end.

(** [EvCallLLM] marks the call itself: one model query. *)
Definition call_llm (prompt : string) : M string :=
  emit (EvCallLLM prompt) ;;
  if String.eqb (PROVIDER cfg) "openai" then
    try_except (_call_openai prompt)
      (fun e =>
         match e with
         | RuntimeError msg =>
             if contains "openai_error" msg
                && String.eqb (FALLBACK_PROVIDER cfg) "llama"
             then
               print ["⚠️ OpenAI failed (quota or request). Falling back to llama.cpp…"] ;;
               _call_llama prompt
             else raise e
         | _ => raise e
         end)
  else if String.eqb (PROVIDER cfg) "llama" then _call_llama prompt
  else raise (RuntimeError ("Unknown PROVIDER=" ++ PROVIDER cfg)).

Definition snapshot_cmd : string :=
  "git diff --staged > .pre_ai_fix.patch || true".

Definition apply_cmd (tmp : string) : string :=
  "git apply --reject --whitespace=fix " ++ tmp.

Definition apply_patch (diff_text : string) : M bool :=
  h0 <- history ;;
  let tmp := tmp_name env h0 in
  emit (EvTmpWrite tmp diff_text) ;;
  finally
    (try_except
       (git ["add"; "-A"] false ;;
        run snapshot_cmd false false ;;
        run (apply_cmd tmp) true false ;;
        git ["add"; "-A"] false ;;
        run ("git commit -m " ++ dq ++ "ai-autobuilder: apply automatic fix"
               ++ dq ++ " || true") false false ;;
        ret true)
       (fun e => emit (EvPrintExn "Patch apply failed:" e) ;; ret false))
    (emit (EvTmpUnlink tmp)).

(** Lines 151-159 of [main]: banner and first snapshot. *)
Definition main_setup : M unit :=
  print ["== AI Autobuilder (with OpenAI→llama fallback) =="] ;;
  print ["Project:"; PROJECT_ROOT cfg] ;;
  print ["Provider: " ++ PROVIDER cfg ++ ", Model: " ++ OPENAI_MODEL cfg
           ++ ", Fallback: " ++ FALLBACK_PROVIDER cfg] ;;
  h <- history ;;
  if negb (git_dir_exists env h) then
    run "git init" false false ;;
    run ("git config user.name " ++ dq ++ "ai-autobuilder" ++ dq) false false ;;
    run ("git config user.email " ++ dq ++ "ai-autobuilder@local" ++ dq)
        false false ;;
    git ["add"; "-A"] false ;;
    run ("git commit -m " ++ dq ++ "ai-autobuilder: initial snapshot" ++ dq
           ++ " || true") false false ;;
    ret tt
  else ret tt.

(** Lines 167-193: [while attempts < MAX_ATTEMPTS: ...].  [fuel] bounds the
    iterations of the model; [main] passes enough. *)
Fixpoint fix_loop (fuel : nat) (attempts : Z) : M loop_exit :=
  if (attempts <? MAX_ATTEMPTS cfg)%Z then
    match fuel with
    | O => ret OutOfFuel
    | S fuel' =>
        let attempts := (attempts + 1)%Z in
        print [String nl "" ++ "== Attempt " ++ str_of_Z attempts ++ "/"
                 ++ str_of_Z (MAX_ATTEMPTS cfg) ++ " =="] ;;
        repo_tree <- get_repo_tree ;;
        recent_diff <- get_recent_diff ;;
        build_tail <- tail_build_log ;;
        let prompt :=
          PROMPT_format repo_tree recent_diff (BUILD_CMD cfg) build_tail in
        llm_out <- call_llm prompt ;;
        let diff := extract_unified_diff llm_out in
        if negb (truthy diff) then
          print ["LLM did not return a unified diff. Aborting this attempt."] ;;
          ret LoopDone
        else
          let diff := match diff with Some d => d | None => EmptyString end in
          print [String nl "" ++ "--- Proposed diff (truncated) ---" ++ String nl ""] ;;
          print [take 1500 diff] ;;
          print [String nl "" ++ "--- end preview ---" ++ String nl ""] ;;
          applied <- apply_patch diff ;;
          if negb applied then
            print ["Could not apply patch. Stopping."] ;;
            ret LoopDone
          else
            code <- run_build ;;
            if (code =? 0)%Z then
              print ["✅ Build fixed!"] ;;
              ret (Returned 0)
            else fix_loop fuel' attempts
    end
  else ret LoopDone.

(** [main()]: [Some code] is the value returned; [None] only if the
    iteration bound given to [fix_loop] were too small. *)
Definition main : M (option Z) :=
  main_setup ;;
  code <- run_build ;;
  if (code =? 0)%Z then
    print ["✅ Build already succeeds. Nothing to do."] ;;
    ret (Some 0%Z)
  else
    r <- fix_loop (Z.to_nat (MAX_ATTEMPTS cfg)) 0%Z ;;
    match r with
    | OutOfFuel => ret None
    | Returned code => ret (Some code)
    | LoopDone =>
        print ["❌ Still failing after attempts."] ;;
        print ["Check build.log and .pre_ai_fix.patch to revert:  git apply -R .pre_ai_fix.patch"] ;;
        ret (Some 1%Z)
    end.

End Program.


(** The whole script, started with an empty history. *)
Definition script (env : Env) : result (option Z) * list event :=
  match load_config env with
  | Raise e => (Raise e, [])
  | Ret cfg => main cfg env []
  end.

(** ** Observations on a trace *)

Definition is_query (ev : event) : bool :=
  match ev with EvCallLLM _ => true | _ => false end.

Definition is_llama (ev : event) : bool :=
  match ev with EvLlama _ => true | _ => false end.

Definition is_build (ev : event) : bool :=
  match ev with EvBuild _ _ => true | _ => false end.

(** Number of model queries in a trace. *)
Definition queries (tr : list event) : nat := List.length (filter is_query tr).

(** The fallback invocations in a trace. *)
Definition llama_calls (tr : list event) : list event := filter is_llama tr.

Definition builds (tr : list event) : nat := List.length (filter is_build tr).

(** A computation that emits no event selected by [P]. *)
Definition silent (P : event -> bool) {A} (m : M A) : Prop :=
  forall h, filter P (snd (m h)) = [].

(** A computation that makes at most [n] model queries. *)
Definition bounded (n : nat) {A} (m : M A) : Prop :=
  forall h, queries (snd (m h)) <= n.


(** A run of [git apply]: the diff-apply step of the patch applier. *)
Definition is_apply_step (ev : event) : bool :=
  match ev with
  | EvRun cmd _ => prefix "git apply" cmd
  | _ => false
  end.

(** The places of a list where [P] holds, each with what precedes it. *)
Fixpoint splits_where {A} (P : A -> bool) (l : list A) : list (list A * A) :=
  match l with
  | [] => []
  | x :: l' =>
      (if P x then [([], x)] else [])
        ++ map (fun pe => (x :: fst pe, snd pe)) (splits_where P l')
  end.

(** ** Sample texts *)

Definition sample_diff : string :=
  "Here is the fix:" ++ String nl
  ("--- a/build.gradle" ++ String nl
  ("+++ b/build.gradle" ++ String nl
  ("@@ -1 +1 @@" ++ String nl
  ("-old" ++ String nl
  ("+new" ++ String nl ""))))).

(** A header pair whose [+++] line is the last line and has no newline. *)
Definition unterminated_pair : string :=
  "--- a/f" ++ String nl "+++ b/f".

(** ** Sample configurations and environments *)

Fixpoint lookup (key : string) (vars : list (string * string)) : option string :=
  match vars with
  | [] => None
  | (k, v) :: vars' => if String.eqb k key then Some v else lookup key vars'
  end.

Definition ok_proc (out : string) : proc :=
  {| returncode := 0; output := [(Stdout, out)] |}.

Definition err_proc (code : Z) (err : string) : proc :=
  {| returncode := code; output := [(Stderr, err)] |}.

(** UTF-8 on the texts of this model.  A byte below 128 is itself, and the
    two-byte sequences led by 0xC2 and 0xC3 are the code points 128 to 255;
    every other byte is either no UTF-8 or the start of a code point above
    255, which no text here can hold, and is refused. *)
Definition is_continuation (c : ascii) : bool :=
  let n := N_of_ascii c in ((128 <=? n) && (n <=? 191))%N.

Fixpoint utf8_decode (b : string) : option string :=
  match b with
  | EmptyString => Some EmptyString
  | String c b' =>
      let n := N_of_ascii c in
      if (n <? 128)%N then option_map (String c) (utf8_decode b')
      else if ((n =? 194) || (n =? 195))%N then
        match b' with
        | String d b'' =>
            if is_continuation d
            then option_map (String (ascii_of_N (N_of_ascii d + (n - 194) * 64)))
                            (utf8_decode b'')
            else None
        | EmptyString => None
        end
      else None
  end.

(** The same with [errors="ignore"]: a byte that is refused is left out. *)
Fixpoint utf8_decode_ignore (b : string) : string :=
  match b with
  | EmptyString => EmptyString
  | String c b' =>
      let n := N_of_ascii c in
      if (n <? 128)%N then String c (utf8_decode_ignore b')
      else if ((n =? 194) || (n =? 195))%N then
        match b' with
        | String d b'' =>
            if is_continuation d
            then String (ascii_of_N (N_of_ascii d + (n - 194) * 64))
                        (utf8_decode_ignore b'')
            else utf8_decode_ignore b'
        | EmptyString => EmptyString
        end
      else utf8_decode_ignore b'
  end.

Definition sample_env (vars : list (string * string))
    (shell : list event -> option string -> string -> option proc)
    (http : list event -> request -> option response) : Env :=
  {| environ := fun key => lookup key vars;
     resolve := fun _ => "/work";
     git_dir_exists := fun _ => true;
     initial_build_log := None;
     decode := utf8_decode;
     decode_ignore := utf8_decode_ignore;
     tmp_name := fun _ => "/tmp/tmpk3v9.patch";
     sh := shell;
     post := http |}.

(** The configuration when only the attempt budget is set. *)
Definition default_cfg (attempts : Z) : Config :=
  {| PROVIDER := "openai";
     OPENAI_MODEL := "gpt-4o-mini";
     FALLBACK_PROVIDER := "llama";
     LLAMA_CPP_BIN := "llama-cli";
     LLAMA_MODEL_PATH := "models/Meta-Llama-3-8B-Instruct.Q4_K_M.gguf";
     MAX_ATTEMPTS := attempts;
     BUILD_CMD := "./gradlew assembleDebug --stacktrace";
     PROJECT_ROOT := "/work" |}.

(** A shell in which the build exits with [build_code], [git apply] with
    [apply_code], and every other command succeeds silently. *)
Definition sample_sh (build_code apply_code : Z)
  : list event -> option string -> string -> option proc :=
  fun _ _ cmd =>
    if String.eqb cmd "./gradlew assembleDebug --stacktrace" then
      Some {| returncode := build_code;
              output := [(Stdout, "> Task :app:compileDebugKotlin" ++ String nl "")] |}
    else if prefix "git apply" cmd then
      Some (if (apply_code =? 0)%Z then ok_proc ""
            else err_proc apply_code
                   ("error: patch failed: build.gradle:1" ++ String nl ""))
    else Some (ok_proc "").

(** A model backend that answers every request with [text]. *)
Definition post_text (text : string) : list event -> request -> option response :=
  fun _ _ => Some {| status_code := 200; err_dump := ""; err_dump_indent := "";
                     content := Some text |}.

(** A model backend that answers every request with an error status. *)
Definition post_status (code : Z) : list event -> request -> option response :=
  fun _ _ => Some {| status_code := code;
                     err_dump := "{" ++ dq ++ "error" ++ dq ++ ": " ++ dq
                                   ++ "rate_limit_exceeded" ++ dq ++ "}";
                     err_dump_indent := "{" ++ dq ++ "error" ++ dq ++ ": " ++ dq
                                   ++ "rate_limit_exceeded" ++ dq ++ "}";
                     content := None |}.

Definition with_key : list (string * string) := [("OPENAI_API_KEY", "sk-test")].

(** The build passes at once. *)
Definition env_green : Env :=
  sample_env with_key (sample_sh 0 0) (post_text sample_diff).

(** The build always fails and the model answers in prose. *)
Definition env_prose : Env :=
  sample_env with_key (sample_sh 1 0) (post_text "I cannot fix this.").

(** The build always fails, the model sends a diff, [git apply] rejects it. *)
Definition env_reject : Env :=
  sample_env with_key (sample_sh 1 1) (post_text sample_diff).

(** The primary backend is rate limited; the local model answers. *)
Definition env_limited : Env :=
  sample_env with_key (sample_sh 1 0) (post_status 429).

(** No credential for the primary backend. *)
Definition env_no_key : Env :=
  sample_env [] (sample_sh 1 0) (post_text sample_diff).

(** A negative attempt budget. *)
Definition env_negative : Env :=
  sample_env (("AI_BUILDER_ATTEMPTS", "-1") :: with_key) (sample_sh 1 0)
             (post_text sample_diff).

(** git is not installed: the shell reports it on standard error. *)
Definition env_no_git : Env :=
  sample_env with_key
    (fun _ _ cmd =>
       if prefix "git " cmd
       then Some (err_proc 0 ("/bin/sh: 1: git: not found" ++ String nl ""))
       else Some (ok_proc ""))
    (post_text sample_diff).

(** ** Further observations on a trace *)

Definition is_patch (ev : event) : bool :=
  match ev with EvTmpWrite _ _ => true | _ => false end.

Definition is_post (ev : event) : bool :=
  match ev with EvPost _ => true | _ => false end.

Definition is_failure_note (ev : event) : bool :=
  match ev with EvPrintExn _ _ => true | _ => false end.

(** Number of patch-apply attempts in a trace. *)
Definition patches (tr : list event) : nat := List.length (filter is_patch tr).

(** The trace [ev], produced from history [h], ends with a build that exited
    with code 0 and the message that reports it. *)
Definition passing_end (cfg : Config) (env : Env) (h ev : list event) : Prop :=
  exists pre p msg,
    ev = (pre ++ [EvLogOpen; EvBuild (BUILD_CMD cfg) (merged p); EvPrint msg])%list
    /\ sh env (h ++ pre ++ [EvLogOpen])%list (Some (PROJECT_ROOT cfg)) (BUILD_CMD cfg)
       = Some p
    /\ returncode p = 0%Z.

(** The two lines [main] prints before it returns 1. *)
Definition failure_report : list event :=
  [EvPrint "❌ Still failing after attempts.";
   EvPrint "Check build.log and .pre_ai_fix.patch to revert:  git apply -R .pre_ai_fix.patch"].

(** After a failure note of the patch applier, no query and no build. *)
Definition stops_after_failure (ev : list event) : Prop :=
  forall pre x post,
    ev = (pre ++ x :: post)%list -> is_failure_note x = true ->
    queries post = 0 /\ builds post = 0.

(** ** Weighted traces

    A weight on events turns a comparison of two counts into a bound on one
    sum, which composes along [bind]. *)

Fixpoint weight (w : event -> Z) (tr : list event) : Z :=
  match tr with
  | [] => 0%Z
  | ev :: tr' => (w ev + weight w tr')%Z
  end.

(** A computation whose trace weighs at most [c]. *)
Definition within (w : event -> Z) (c : Z) {A} (m : M A) : Prop :=
  forall h, (weight w (snd (m h)) <= c)%Z.

Definition weighs (w : event -> Z) (ev : event) : bool := negb (w ev =? 0)%Z.

(** Builds count +1, patch-apply attempts -1. *)
Definition build_minus_patch (ev : event) : Z :=
  if is_build ev then 1%Z else if is_patch ev then (-1)%Z else 0%Z.

(** Patch-apply attempts count +1, model queries -1. *)
Definition patch_minus_query (ev : event) : Z :=
  if is_patch ev then 1%Z else if is_query ev then (-1)%Z else 0%Z.


(** A query whose prompt does not hold the build command. *)
Definition prompt_lacks_build (cfg : Config) (ev : event) : bool :=
  match ev with
  | EvCallLLM prompt => negb (contains (BUILD_CMD cfg) prompt)
  | _ => false
  end.

(** A computation whose every trace stops after a failure note. *)
Definition careful {A} (m : M A) : Prop :=
  forall h, stops_after_failure (snd (m h)).

(** [git apply] cannot be started; the build fails and the model sends a
    diff. *)
Definition env_unstartable : Env :=
  sample_env with_key
    (fun h cwd cmd => if prefix "git apply" cmd then None
                      else sample_sh 1 0 h cwd cmd)
    (post_text sample_diff).

(** The HTTP requests in a trace. *)
Definition posts (tr : list event) : list event := filter is_post tr.

(** The primary backend is rate limited and no fallback is configured. *)
Definition cfg_no_fallback : Config :=
  {| PROVIDER := "openai";
     OPENAI_MODEL := "gpt-4o-mini";
     FALLBACK_PROVIDER := "none";
     LLAMA_CPP_BIN := "llama-cli";
     LLAMA_MODEL_PATH := "models/Meta-Llama-3-8B-Instruct.Q4_K_M.gguf";
     MAX_ATTEMPTS := 3;
     BUILD_CMD := "./gradlew assembleDebug --stacktrace";
     PROJECT_ROOT := "/work" |}.

(** A provider name the client does not know. *)
Definition cfg_unknown_provider : Config :=
  {| PROVIDER := "claude";
     OPENAI_MODEL := "gpt-4o-mini";
     FALLBACK_PROVIDER := "llama";
     LLAMA_CPP_BIN := "llama-cli";
     LLAMA_MODEL_PATH := "models/Meta-Llama-3-8B-Instruct.Q4_K_M.gguf";
     MAX_ATTEMPTS := 3;
     BUILD_CMD := "./gradlew assembleDebug --stacktrace";
     PROJECT_ROOT := "/work" |}.

(** Occurrences of a character in a text. *)
Fixpoint count_char (c : ascii) (s : string) : nat :=
  match s with
  | EmptyString => 0
  | String d s' => (if Ascii.eqb c d then 1 else 0) + count_char c s'
  end.

(** [pre] is empty or ends with a newline: what follows starts a line. *)
Fixpoint ends_line (pre : string) : bool :=
  match pre with
  | EmptyString => true
  | String c EmptyString => Ascii.eqb c nl
  | String _ pre' => ends_line pre'
  end.

(** The diff inside [sample_diff]. *)
Definition sample_patch : string :=
  "--- a/build.gradle" ++ String nl
  ("+++ b/build.gradle" ++ String nl
  ("@@ -1 +1 @@" ++ String nl
  ("-old" ++ String nl
  ("+new" ++ String nl "")))).

(** ** JSON strings *)

(** Printable ASCII: what [json.dumps] leaves in its output. *)
Definition printable (c : ascii) : bool :=
  let n := N_of_ascii c in ((32 <=? n) && (n <=? 126))%N.

(** Printable and neither a double quote nor a backslash. *)
Definition plain (c : ascii) : bool :=
  let n := N_of_ascii c in
  printable c && negb (n =? 34)%N && negb (n =? 92)%N.

Fixpoint all_chars (P : ascii -> bool) (s : string) : bool :=
  match s with
  | EmptyString => true
  | String c s' => P c && all_chars P s'
  end.

Definition hex_value (c : ascii) : N :=
  let n := N_of_ascii c in
  if (n <? 58)%N then (n - 48)%N else (n - 87)%N.

(** Reads back what [json_escape] wrote. *)
Fixpoint json_unescape (s : string) : string :=
  match s with
  | EmptyString => EmptyString
  | String c r =>
      if (N_of_ascii c =? 92)%N then
        match r with
        | String e r2 =>
            if (N_of_ascii e =? 117)%N then
              match r2 with
              | String _ (String _ (String x (String y r3))) =>
                  String (ascii_of_N (16 * hex_value x + hex_value y))
                         (json_unescape r3)
              | _ => EmptyString
              end
            else
              let n := N_of_ascii e in
              String (if (n =? 110)%N then nl
                      else if (n =? 114)%N then cr
                      else if (n =? 116)%N then "009"%char
                      else if (n =? 98)%N then "008"%char
                      else if (n =? 102)%N then "012"%char
                      else e)
                     (json_unescape r2)
        | EmptyString => EmptyString
        end
      else String c (json_unescape r)
  end.

(** ** The command lines of the patch applier, as [sh -c] reads them

    [run] hands its command line to [/bin/sh -c].  This is the part of the
    shell language in which the first two commands of [apply_patch] are
    written: words separated by blanks, [> file] on a command, and [&&] and
    [||] between commands, where every command is a program or [true].  A
    command line with anything else (quotes, [$], [;], [=], a reserved word
    or another builtin of the shell as command, ...) is outside it. *)

Module Shell.

(** A simple command: its words and, if there is one, the file that
    receives its standard output. *)
Record simple : Type := {
  argv : list string;
  redirect : option string
}.

Inductive connective : Type := AndIf | OrIf.      (* && and || *)

(** An and-or list; it is run from left to right. *)
Record and_or : Type := {
  first : simple;
  rest : list (connective * simple)
}.

Inductive token : Type :=
| TWord (w : string)
| TAnd
| TOr
| TGreat.

(** Letters, digits and [- . / _]: characters that are themselves in a
    word. *)
Definition word_char (c : ascii) : bool :=
  let n := N_of_ascii c in
  (((48 <=? n) && (n <=? 57)) || ((65 <=? n) && (n <=? 90))
   || ((97 <=? n) && (n <=? 122))
   || (n =? 45) || (n =? 46) || (n =? 47) || (n =? 95))%N.

Fixpoint split_blank (s : string) : list string :=
  match s with
  | EmptyString => [EmptyString]
  | String c s' =>
      if Ascii.eqb c " "%char then EmptyString :: split_blank s'
      else match split_blank s' with
           | w :: ws => String c w :: ws
           | [] => [String c EmptyString]
           end
  end.

Definition classify (w : string) : option token :=
  if String.eqb w "&&" then Some TAnd
  else if String.eqb w "||" then Some TOr
  else if String.eqb w ">" then Some TGreat
  else if all_chars word_char w then Some (TWord w)
  else None.

Fixpoint all_some {A} (l : list (option A)) : option (list A) :=
  match l with
  | [] => Some []
  | Some x :: l' => option_map (cons x) (all_some l')
  | None :: _ => None
  end.

Definition tokenize (s : string) : option (list token) :=
  all_some (map classify (filter (fun w => negb (is_empty w)) (split_blank s))).

(** The tokens up to the first [&&] or [||], and the commands after it. *)
Fixpoint segments (ts : list token) : list token * list (connective * list token) :=
  match ts with
  | [] => ([], [])
  | TAnd :: ts' => let (seg, more) := segments ts' in ([], (AndIf, seg) :: more)
  | TOr :: ts' => let (seg, more) := segments ts' in ([], (OrIf, seg) :: more)
  | t :: ts' => let (seg, more) := segments ts' in (t :: seg, more)
  end.

Fixpoint parse_simple (ts : list token) (c : simple) : option simple :=
  match ts with
  | [] => match argv c with [] => None | _ :: _ => Some c end
  | TWord w :: ts' =>
      parse_simple ts' {| argv := argv c ++ [w]; redirect := redirect c |}
  | TGreat :: TWord f :: ts' =>
      match redirect c with
      | None => parse_simple ts' {| argv := argv c; redirect := Some f |}
      | Some _ => None
      end
  | _ => None
  end.

(** The reserved words and the builtins of the shell: as the name of a
    command they are not programs. *)
Definition shell_words : list string :=
  ["if"; "then"; "else"; "elif"; "fi"; "case"; "esac"; "for"; "while"; "until";
   "do"; "done"; "in"; "function";
   "."; "alias"; "bg"; "break"; "cd"; "chdir"; "command"; "continue"; "echo";
   "eval"; "exec"; "exit"; "export"; "false"; "fg"; "getopts"; "hash"; "jobs";
   "kill"; "local"; "printf"; "pwd"; "read"; "readonly"; "return"; "set";
   "shift"; "test"; "times"; "trap"; "type"; "ulimit"; "umask"; "unalias";
   "unset"; "wait"].

Definition parse_segment (seg : list token) : option simple :=
  match parse_simple seg {| argv := []; redirect := None |} with
  | Some c =>
      match argv c with
      | name :: _ => if existsb (String.eqb name) shell_words then None else Some c
      | [] => None
      end
  | None => None
  end.

Definition parse (s : string) : option and_or :=
  match tokenize s with
  | None => None
  | Some ts =>
      let (seg, more) := segments ts in
      match parse_segment seg,
            all_some (map (fun oc => option_map (pair (fst oc)) (parse_segment (snd oc)))
                          more) with
      | Some c, Some cs => Some {| first := c; rest := cs |}
      | _, _ => None
      end
  end.

(** The files: what each path holds, and the paths the system refuses to
    create or open for writing. *)
Record FS : Type := {
  content : string -> option string;
  refuses : string -> bool
}.

Definition write (f data : string) (fs : FS) : FS :=
  {| content := fun p => if String.eqb p f then Some data else content fs p;
     refuses := refuses fs |}.

Definition remove (f : string) (fs : FS) : FS :=
  {| content := fun p => if String.eqb p f then None else content fs p;
     refuses := refuses fs |}.

(** A finished command: exit status, what it wrote on its standard output,
    and the files it left. *)
Record outcome : Type := {
  status : Z;
  printed : string;
  files : FS
}.

(** The programs on the machine (git among them): their words and the
    files decide what they do. *)
Definition programs : Type := list string -> FS -> outcome.

(** [true] is the shell's own; every other command is a program. *)
Definition run_words (prog : programs) (words : list string) (fs : FS) : outcome :=
  match words with
  | [w] => if String.eqb w "true" then {| status := 0; printed := ""; files := fs |}
           else prog words fs
  | _ => prog words fs
  end.

(** With [> f] the shell first creates or empties [f]; if it cannot, it
    complains, the command is not run and its status is 2.  Otherwise [f]
    receives what the command prints (a command is taken not to write to
    that file by other means). *)
Definition exec_simple (prog : programs) (c : simple) (fs : FS) : outcome :=
  match redirect c with
  | None => run_words prog (argv c) fs
  | Some f =>
      if refuses fs f then {| status := 2; printed := ""; files := fs |}
      else
        let o := run_words prog (argv c) (write f "" fs) in
        {| status := status o; printed := ""; files := write f (printed o) (files o) |}
  end.

Fixpoint exec_rest (prog : programs) (o : outcome) (cs : list (connective * simple))
  : outcome :=
  match cs with
  | [] => o
  | (op, c) :: cs' =>
      let runs := match op with
                  | AndIf => (status o =? 0)%Z
                  | OrIf => negb (status o =? 0)%Z
                  end in
      if runs then
        let o' := exec_simple prog c (files o) in
        exec_rest prog {| status := status o'; printed := printed o ++ printed o';
                          files := files o' |} cs'
      else exec_rest prog o cs'
  end.

Definition exec (prog : programs) (l : and_or) (fs : FS) : outcome :=
  exec_rest prog (exec_simple prog (first l) fs) (rest l).

(** [sh -c cmd]; [None] when [cmd] is outside the fragment. *)
Definition sh_c (prog : programs) (cmd : string) (fs : FS) : option outcome :=
  option_map (fun l => exec prog l fs) (parse cmd).

(** The files after the steps of a trace of the patch applier, all of whose
    children ran; [None] when the trace holds a step that is not followed
    here (a command outside the fragment, a build, the local model). *)
Fixpoint fs_after (prog : programs) (tr : list event) (fs : FS) : option FS :=
  match tr with
  | [] => Some fs
  | EvTmpWrite name data :: tr' => fs_after prog tr' (write name data fs)
  | EvTmpUnlink name :: tr' => fs_after prog tr' (remove name fs)
  | EvRun cmd _ :: tr' =>
      match sh_c prog cmd fs with
      | Some o => fs_after prog tr' (files o)
      | None => None
      end
  | EvPrint _ :: tr' => fs_after prog tr' fs
  | EvPrintExn _ _ :: tr' => fs_after prog tr' fs
  | _ => None
  end.

(** A stand-in for git, enough to run the snapshot on: [git add -A] records
    the tree in the index, [git diff --staged] prints the index. *)
Definition toy_git : programs :=
  fun words fs =>
    if String.eqb (join " " words) "git add -A" then
      {| status := 0; printed := "";
         files := write ".git/index"
                    (match content fs "build.gradle" with Some s => s | None => "" end)
                    fs |}
    else if String.eqb (join " " words) "git diff --staged" then
      {| status := 0;
         printed := match content fs ".git/index" with Some s => s | None => "" end;
         files := fs |}
    else {| status := 127; printed := ""; files := fs |}.

(** A tree with one file. *)
Definition small_tree : FS :=
  {| content := fun p => if String.eqb p "build.gradle" then Some "apply plugin"
                         else None;
     refuses := fun _ => false |}.

(** The same tree when the snapshot file cannot be created. *)
Definition locked_tree : FS :=
  {| content := content small_tree;
     refuses := fun p => String.eqb p ".pre_ai_fix.patch" |}.

End Shell.

(** ** tools/ai_bootstrapper.py: project detection

    The detection of project types and the table of build commands; the
    text of the generated workflows is not modelled. *)

Module Bootstrapper.

(** The project tree as the script sees it. *)
Record Tree : Type := {
  path_exists : string -> bool;       (* (ROOT / name).exists() *)
  glob : string -> list string        (* list(ROOT.glob(pattern)) *)
}.

Definition is_nil {A} (l : list A) : bool :=
  match l with [] => true | _ :: _ => false end.

Definition exists_any (t : Tree) (patterns : list string) : bool :=
  existsb (fun pat => negb (is_nil (glob t pat))) patterns.

Definition detect_types (t : Tree) : list string :=
  let types := [] in
  let types :=
    if path_exists t "gradlew"
       || exists_any t ["android/**/gradlew"; "**/build.gradle*"; "**/settings.gradle*"]
    then (types ++ ["android"])%list else types in
  let types :=
    if path_exists t "CMakeLists.txt" || exists_any t ["**/CMakeLists.txt"]
    then (types ++ ["cmake"])%list else types in
  let types :=
    if path_exists t "package.json" then (types ++ ["node"])%list else types in
  let types :=
    if path_exists t "setup.py" || path_exists t "pyproject.toml"
    then (types ++ ["python"])%list else types in
  let types :=
    if path_exists t "Cargo.toml" then (types ++ ["rust"])%list else types in
  let types :=
    if exists_any t ["*.sln"; "**/*.csproj"; "**/*.fsproj"]
    then (types ++ ["dotnet"])%list else types in
  let types :=
    if path_exists t "pom.xml" then (types ++ ["maven"])%list else types in
  let types :=
    if path_exists t "pubspec.yaml" then (types ++ ["flutter"])%list else types in
  let types :=
    if path_exists t "go.mod" then (types ++ ["go"])%list else types in
  if is_nil types then (types ++ ["unknown"])%list else types.

Definition BUILD_CMDS : list (string * string) :=
  [("android", "./gradlew assembleDebug --stacktrace");
   ("cmake", "cmake -S . -B build && cmake --build build -j");
   ("node", "npm ci && npm run build --if-present");
   ("python", "pip install -e . && pytest || python -m pytest");
   ("rust", "cargo build --locked --all-targets --verbose");
   ("dotnet", "dotnet restore && dotnet build -c Release");
   ("maven", "mvn -B package --file pom.xml");
   ("flutter", "flutter build apk --debug");
   ("go", "go build ./...");
   ("unknown", "echo 'No build system detected' && exit 1")].

(** [out = WF / f"ai-autobuilder-{ptype}.yml"] in [write_workflow]:
    the name of the file written for a type. *)
Definition workflow_file (ptype : string) : string :=
  "ai-autobuilder-" ++ ptype ++ ".yml".

(** The calls [write_workflow(t, BUILD_CMDS[t])] of [main], each as the file
    it writes and the command it is given; a missing key raises. *)
Fixpoint write_all (types : list string) : result unit * list (string * string) :=
  match types with
  | [] => (Ret tt, [])
  | t :: types' =>
      match lookup t BUILD_CMDS with
      | None => (Raise (KeyError t), [])
      | Some cmd =>
          let (r, written) := write_all types' in
          (r, (workflow_file t, cmd) :: written)
      end
  end.

Definition main (t : Tree) : result unit * list (string * string) :=
  write_all (detect_types t).

(** [ty in types] *)
Definition mem (ty : string) (types : list string) : bool :=
  existsb (String.eqb ty) types.


(** [detect_types] as a function of the answers of its nine tests. *)
Definition detect_from (android cmake node python rust dotnet maven flutter go : bool)
  : list string :=
  let types := [] in
  let types := if android then (types ++ ["android"])%list else types in
  let types := if cmake then (types ++ ["cmake"])%list else types in
  let types := if node then (types ++ ["node"])%list else types in
  let types := if python then (types ++ ["python"])%list else types in
  let types := if rust then (types ++ ["rust"])%list else types in
  let types := if dotnet then (types ++ ["dotnet"])%list else types in
  let types := if maven then (types ++ ["maven"])%list else types in
  let types := if flutter then (types ++ ["flutter"])%list else types in
  let types := if go then (types ++ ["go"])%list else types in
  if is_nil types then (types ++ ["unknown"])%list else types.

(** A test on booleans holds for both. *)
Definition both (F : bool -> bool) : bool := F true && F false.



Definition agrees (l : list string)
    (android cmake node python rust dotnet maven flutter go : bool) : bool :=
  Bool.eqb (mem "android" l) android
  && Bool.eqb (mem "cmake" l) cmake
  && Bool.eqb (mem "node" l) node
  && Bool.eqb (mem "python" l) python
  && Bool.eqb (mem "rust" l) rust
  && Bool.eqb (mem "dotnet" l) dotnet
  && Bool.eqb (mem "maven" l) maven
  && Bool.eqb (mem "flutter" l) flutter
  && Bool.eqb (mem "go" l) go
  && Bool.eqb (mem "unknown" l)
       (negb (android || cmake || node || python || rust || dotnet || maven
              || flutter || go)).

(** A Gradle project with a CMake part. *)
Definition sample_tree : Tree :=
  {| path_exists := fun name => String.eqb name "gradlew";
     glob := fun pat =>
       if String.eqb pat "**/CMakeLists.txt" then ["app/src/main/cpp/CMakeLists.txt"]
       else [] |}.

End Bootstrapper.

(** ** Output that is no text *)

(** The last commit changed a file written in Latin-1: [git diff] prints
    the byte 0xE9, which is no UTF-8.  The build fails and the model would
    send a diff. *)
Definition env_latin1_diff : Env :=
  sample_env with_key
    (fun h cwd cmd =>
       if String.eqb cmd "git log --oneline -n 1 || true" then
         Some (ok_proc ("3f2a91c fix menu" ++ String nl ""))
       else if String.eqb cmd "git diff --unified=2 -M -C HEAD~5..HEAD || true" then
         Some (ok_proc ("+caf" ++ String (ascii_of_nat 233) (String nl "")))
       else sample_sh 1 0 h cwd cmd)
    (post_text sample_diff).

(** A computation that always ends with an exception. *)
Definition never_returns {A} (m : M A) : Prop :=
  forall h, exists e, fst (m h) = Raise e.

(** * Properties *)

(** ** Strings *)

Lemma prefix_cons (c d : ascii) (w s : string) :
  prefix (String c w) (String d s) = Ascii.eqb c d && prefix w s.
Proof.
  simpl. destruct (ascii_dec c d) as [->|Hne].
  - now rewrite Ascii.eqb_refl.
  - apply Ascii.eqb_neq in Hne. now rewrite Hne.
Qed.

Lemma prefix_split (w s : string) :
  prefix w s = true -> s = w ++ drop (String.length w) s.
Proof.
  revert s. induction w as [|c w IH]; intros s H.
  - reflexivity.
  - destruct s as [|d s]; [discriminate|].
    rewrite prefix_cons in H. apply andb_true_iff in H as [Hc Hw].
    apply Ascii.eqb_eq in Hc. subst d. simpl. f_equal. now apply IH.
Qed.

Lemma rstrip_keep (c : ascii) (s : string) :
  is_empty (rstrip s) = false -> rstrip (String c s) = String c (rstrip s).
Proof. intros H. simpl. now rewrite H. Qed.

Lemma rstrip_nonspace (s : string) :
  has_nonspace s = true -> is_empty (rstrip s) = false.
Proof.
  induction s as [|c s IH]; simpl; intros H; [discriminate|].
  destruct (is_empty (rstrip s)) eqn:E; simpl.
  - destruct (isspace c); simpl in *; [|reflexivity].
    specialize (IH H). discriminate.
  - reflexivity.
Qed.

Lemma has_nonspace_app_r (a b : string) :
  has_nonspace b = true -> has_nonspace (a ++ b) = true.
Proof.
  induction a as [|c a IH]; simpl; intros H; [assumption|].
  rewrite IH by assumption. apply orb_true_r.
Qed.

Lemma rstrip_app_keep (a b : string) :
  has_nonspace b = true -> rstrip (a ++ b) = a ++ rstrip b.
Proof.
  intros H. induction a as [|c a IH]; [reflexivity|].
  change (String c a ++ b) with (String c (a ++ b)).
  rewrite rstrip_keep, IH; [reflexivity|].
  apply rstrip_nonspace, has_nonspace_app_r, H.
Qed.

Lemma contains_prefix (w s : string) : contains w (w ++ s) = true.
Proof.
  assert (P : prefix w (w ++ s) = true).
  { induction w as [|c w IH]; [now destruct s|].
    change (String c w ++ s) with (String c (w ++ s)).
    now rewrite prefix_cons, Ascii.eqb_refl, IH. }
  destruct (w ++ s); simpl in *; now rewrite P.
Qed.

Example strip_examples :
  strip ("  a b " ++ String nl "") = "a b"
  /\ strip (String "009" (String nl " ")) = ""
  /\ strip "" = "".
Proof. repeat split; reflexivity. Qed.

Example splitlines_examples :
  splitlines ("a" ++ String cr (String nl "b")) = ["a"; "b"]
  /\ splitlines ("a" ++ String nl (String nl "b")) = ["a"; ""; "b"]
  /\ splitlines ("a" ++ String nl "") = ["a"]
  /\ splitlines "" = []
  /\ split_nl ("a" ++ String nl "") = ["a"; ""].
Proof. repeat split; reflexivity. Qed.

Example json_dumps_example :
  json_dumps ("a" ++ dq ++ String nl "b")
  = dq ++ "a" ++ backslash ++ dq ++ backslash ++ "nb" ++ dq.
Proof. reflexivity. Qed.

(** ** Lines *)

Lemma span_line_length (s l r : string) :
  span_line s = (l, Some r) -> String.length r < String.length s.
Proof.
  revert l r. induction s as [|c s IH]; simpl; intros l r H; [discriminate|].
  destruct (Ascii.eqb c nl).
  - injection H as _ <-. lia.
  - destruct (span_line s) as [l' [r'|]]; [|discriminate].
    injection H as _ <-. specialize (IH _ _ eq_refl). lia.
Qed.

Lemma span_line_nonspace (s l r : string) :
  span_line s = (l, Some r) -> has_nonspace r = true -> has_nonspace s = true.
Proof.
  revert l r. induction s as [|c s IH]; simpl; intros l r H Hr; [discriminate|].
  destruct (Ascii.eqb c nl).
  - injection H as _ <-. rewrite Hr. apply orb_true_r.
  - destruct (span_line s) as [l' [r'|]]; [|discriminate].
    injection H as _ <-. rewrite (IH _ _ eq_refl Hr). apply orb_true_r.
Qed.

Lemma split_nl_span (s : string) :
  split_nl s =
  fst (span_line s) ::
  match snd (span_line s) with Some r => split_nl r | None => [] end.
Proof.
  induction s as [|c s IH]; simpl; [reflexivity|].
  destruct (Ascii.eqb c nl); simpl; [reflexivity|].
  rewrite IH. now destruct (span_line s).
Qed.

(** A header line, read off the text itself. *)
Lemma header_span (w s : string) :
  no_newline w = true ->
  is_header w (fst (span_line s)) =
    prefix w s && negb (is_empty (fst (span_line (drop (String.length w) s))))
  /\ (prefix w s = true ->
      snd (span_line s) = snd (span_line (drop (String.length w) s))).
Proof.
  revert s. induction w as [|c w IH]; intros s Hw.
  - split; [|reflexivity]. cbn [drop String.length].
    generalize (fst (span_line s)). intros l. now destruct s, l.
  - simpl in Hw. apply andb_true_iff in Hw as [Hc Hw].
    apply negb_true_iff in Hc.
    destruct s as [|d s].
    + split; [reflexivity|discriminate].
    + rewrite prefix_cons.
      destruct (Ascii.eqb c d) eqn:Ecd.
      * apply Ascii.eqb_eq in Ecd. subst d.
        cbn [span_line]. rewrite Hc.
        destruct (IH s Hw) as [IH1 IH2].
        destruct (span_line s) as [l r] eqn:Es. cbn [fst snd] in *.
        cbn [drop String.length andb].
        split; [|exact IH2].
        rewrite <- IH1. unfold is_header.
        rewrite prefix_cons, Ascii.eqb_refl. reflexivity.
      * split; [|discriminate]. cbn [andb]. unfold is_header.
        cbn [span_line]. destruct (Ascii.eqb d nl).
        -- reflexivity.
        -- destruct (span_line s). cbn [fst].
           now rewrite prefix_cons, Ecd.
Qed.

(** ** The header pattern *)

(** [[^\n]+\n] takes the rest of a non-empty line and its newline. *)
Lemma plus_loop_nl (p : list Re.atom) (s : string) :
  Re.plus_loop (Re.match_here (Re.Chr nl :: p) false) s =
  match span_line s with
  | (l, Some r) => negb (is_empty l) && Re.match_here p true r
  | (_, None) => false
  end.
Proof.
  induction s as [|c s IH]; [reflexivity|].
  cbn [Re.plus_loop span_line].
  destruct (Ascii.eqb c nl) eqn:Ec; [reflexivity|].
  rewrite IH. destruct s as [|d s].
  - reflexivity.
  - cbn [span_line Re.match_here].
    rewrite (Ascii.eqb_sym nl d).
    destruct (Ascii.eqb d nl) eqn:Ed.
    + reflexivity.
    + destruct (span_line s) as [l [r|]]; cbn [is_empty negb andb orb].
      * now rewrite orb_false_r.
      * reflexivity.
Qed.

(** A literal in front of [[^\n]+]. *)
Lemma lit_plus (w : string) (q : list Re.atom) (b : bool) (s : string) :
  Re.match_here (Re.lit w ++ Re.NotNlPlus :: q) b s =
  prefix w s && Re.plus_loop (Re.match_here q false) (drop (String.length w) s).
Proof.
  revert b s. induction w as [|c w IH]; intros b s.
  - cbn [Re.lit app Re.match_here String.length drop]. now destruct s.
  - destruct s as [|d s]; [reflexivity|].
    rewrite prefix_cons. cbn [Re.lit app Re.match_here String.length drop].
    now rewrite IH, andb_assoc.
Qed.

Lemma header_re_eq :
  header_re = Re.Bol :: Re.lit "--- " ++ Re.NotNlPlus :: Re.Chr nl :: plus_re.
Proof. reflexivity. Qed.

(** A line that starts with [w] and goes on: from the text at its head. *)
Lemma lit_line (w : string) (q : list Re.atom) (b : bool) (s : string) :
  no_newline w = true ->
  Re.match_here (Re.lit w ++ Re.NotNlPlus :: Re.Chr nl :: q) b s =
  match span_line s with
  | (l, Some r) => is_header w l && Re.match_here q true r
  | (_, None) => false
  end.
Proof.
  intros Hw. rewrite lit_plus, plus_loop_nl.
  destruct (header_span w s Hw) as [H1 H2].
  destruct (prefix w s) eqn:Ep.
  - specialize (H2 eq_refl).
    destruct (span_line s) as [l r], (span_line (drop (String.length w) s)) as [l' r'].
    cbn [fst snd] in *. subst r'. rewrite H1. now destruct r.
  - destruct (span_line s) as [l r]. cbn [fst andb] in *. rewrite H1.
    now destruct r.
Qed.

(** The pattern matches at a line start exactly on a [---] header line
    followed by a [+++] header line that a newline ends. *)
Lemma match_header (s : string) :
  Re.match_here header_re true s =
  match span_line s with
  | (l1, Some r1) =>
      match span_line r1 with
      | (l2, Some _) => is_header "--- " l1 && is_header "+++ " l2
      | (_, None) => false
      end
  | (_, None) => false
  end.
Proof.
  rewrite header_re_eq. cbn [Re.match_here andb].
  rewrite lit_line by reflexivity.
  destruct (span_line s) as [l1 [r1|]]; [|reflexivity].
  unfold plus_re.
  change [Re.NotNlPlus; Re.Chr nl] with (Re.NotNlPlus :: Re.Chr nl :: []).
  rewrite lit_line by reflexivity.
  destruct (span_line r1) as [l2 [r2|]].
  - cbn [Re.match_here]. now rewrite andb_true_r.
  - apply andb_false_r.
Qed.

Lemma match_header_not_bol (s : string) :
  Re.match_here header_re false s = false.
Proof. reflexivity. Qed.

(** Inside a line nothing matches: the search resumes after the newline. *)
Lemma search_skip (s : string) (i : nat) :
  Re.search_from header_re false s i =
  match span_line s with
  | (l, Some r) => Re.search_from header_re true r (i + String.length l + 1)
  | (_, None) => None
  end.
Proof.
  revert i. induction s as [|c s IH]; intros i; [reflexivity|].
  cbn [Re.search_from span_line]. rewrite match_header_not_bol.
  destruct (Ascii.eqb c nl).
  - cbn [String.length]. now replace (i + 0 + 1) with (S i) by lia.
  - rewrite IH. destruct (span_line s) as [l [r|]]; [|reflexivity].
    cbn [String.length]. f_equal. lia.
Qed.

Lemma search_line (s : string) (i : nat) :
  Re.search_from header_re true s i =
  if Re.match_here header_re true s then Some i
  else match span_line s with
       | (l, Some r) => Re.search_from header_re true r (i + String.length l + 1)
       | (_, None) => None
       end.
Proof.
  destruct s as [|c s]; [reflexivity|].
  cbn [Re.search_from span_line].
  destruct (Re.match_here header_re true (String c s)); [reflexivity|].
  destruct (Ascii.eqb c nl).
  - cbn [String.length]. now replace (i + 0 + 1) with (S i) by lia.
  - rewrite search_skip. destruct (span_line s) as [l [r|]]; [|reflexivity].
    cbn [String.length]. f_equal. lia.
Qed.

Lemma spec_find_pair_nl_span (s : string) (off : nat) :
  spec_find_pair_nl (split_nl s) off =
  match span_line s with
  | (l1, Some r1) =>
      match span_line r1 with
      | (l2, Some _) =>
          if is_header "--- " l1 && is_header "+++ " l2 then Some off
          else spec_find_pair_nl (split_nl r1) (off + String.length l1 + 1)
      | (_, None) => None
      end
  | (_, None) => None
  end.
Proof.
  rewrite (split_nl_span s).
  destruct (span_line s) as [l1 [r1|]]; cbn [fst snd]; [|reflexivity].
  rewrite (split_nl_span r1).
  destruct (span_line r1) as [l2 [r2|]]; cbn [fst snd]; [|reflexivity].
  rewrite (split_nl_span r2). reflexivity.
Qed.

(** The regular-expression search and the line scanner find the same
    offset. *)
Lemma search_is_line_scan (n : nat) :
  forall (s : string) (off : nat),
    String.length s <= n ->
    Re.search_from header_re true s off = spec_find_pair_nl (split_nl s) off.
Proof.
  induction n as [|n IH]; intros s off Hn.
  - destruct s; [reflexivity | simpl in Hn; lia].
  - rewrite search_line, match_header, spec_find_pair_nl_span.
    destruct (span_line s) as [l1 [r1|]] eqn:E1; [|reflexivity].
    pose proof (span_line_length _ _ _ E1) as Hlen.
    assert (Hr : String.length r1 <= n) by lia.
    destruct (span_line r1) as [l2 [r2|]] eqn:E2.
    + destruct (is_header "--- " l1 && is_header "+++ " l2); [reflexivity|].
      now apply IH.
    + rewrite IH by assumption. rewrite spec_find_pair_nl_span, E2. reflexivity.
Qed.

Lemma search_from_ge (p : list Re.atom) (s : string) :
  forall (b : bool) (i j : nat), Re.search_from p b s i = Some j -> i <= j.
Proof.
  induction s as [|c s IH]; intros b i j; cbn [Re.search_from].
  - destruct (Re.match_here p b ""); intros H; [injection H as <-; lia | discriminate].
  - destruct (Re.match_here p b (String c s)); intros H.
    + injection H as <-. lia.
    + apply IH in H. lia.
Qed.

Lemma search_from_sound (p : list Re.atom) (s : string) :
  forall (b : bool) (i j : nat),
    Re.search_from p b s i = Some j ->
    exists b', Re.match_here p b' (drop (j - i) s) = true.
Proof.
  induction s as [|c s IH]; intros b i j; cbn [Re.search_from].
  - destruct (Re.match_here p b "") eqn:E; intros H; [|discriminate].
    injection H as <-. exists b. now rewrite Nat.sub_diag.
  - destruct (Re.match_here p b (String c s)) eqn:E; intros H.
    + injection H as <-. exists b. now rewrite Nat.sub_diag.
    + pose proof (search_from_ge _ _ _ _ _ H) as Hle.
      destruct (IH _ _ _ H) as [b' Hb']. exists b'.
      replace (j - i) with (S (j - S i)) by lia. exact Hb'.
Qed.

(** What a match of the header pattern starts with. *)
Lemma match_header_shape (b : bool) (s : string) :
  Re.match_here header_re b s = true ->
  exists rest, s = "--- " ++ rest /\ has_nonspace rest = true.
Proof.
  destruct b; [|discriminate].
  rewrite header_re_eq. cbn [Re.match_here andb].
  rewrite lit_plus, plus_loop_nl. intros H.
  apply andb_true_iff in H as [Hp H].
  exists (drop 4 s). split; [exact (prefix_split "--- " s Hp)|].
  cbn [String.length] in H.
  destruct (span_line (drop 4 s)) as [l [r|]] eqn:E; [|discriminate].
  apply andb_true_iff in H as [_ H].
  unfold plus_re in H. rewrite lit_plus in H.
  apply andb_true_iff in H as [Hq _].
  apply (span_line_nonspace _ _ _ E).
  rewrite (prefix_split "+++ " r Hq). reflexivity.
Qed.

(** ** Diff extractor *)

Example extract_sample :
  extract_unified_diff sample_diff =
  Some ("--- a/build.gradle" ++ String nl
       ("+++ b/build.gradle" ++ String nl
       ("@@ -1 +1 @@" ++ String nl
       ("-old" ++ String nl "+new")))).
Proof. reflexivity. Qed.

Example extract_prose : extract_unified_diff "I cannot fix this." = None.
Proof. reflexivity. Qed.

Example extract_blank_tokens :
  extract_unified_diff ("--- " ++ String "009" (String nl ("+++ " ++ String "009" (String nl ""))))
  = Some ("--- " ++ String "009" (String nl "+++")).
Proof. reflexivity. Qed.

(** C5, as stated, fails: the text [unterminated_pair] holds a [--- <token>]
    line immediately followed by a [+++ <token>] line, so the line scanner of
    the specification returns it, but the extractor returns absent because the
    [+++] line is not ended by a newline. *)
Lemma extract_unterminated_pair :
  extract_unified_diff unterminated_pair = None
  /\ spec_extract unterminated_pair = Some unterminated_pair.
Proof. split; reflexivity. Qed.

(** C5 (amended): for every input text the extractor returns the text from
    the first line [--- <token>] that is immediately followed by a line
    [+++ <token>] which is itself ended by a newline, up to the end of the
    input and stripped of surrounding whitespace; it returns absent exactly
    when there is no such pair. *)
Theorem extract_unified_diff_line_scan (text : string) :
  extract_unified_diff text = spec_extract_nl text.
Proof.
  unfold extract_unified_diff, spec_extract_nl, Re.search.
  rewrite (search_is_line_scan (String.length text)) by lia.
  now destruct (spec_find_pair_nl (split_nl text) 0).
Qed.

Lemma strip_header (rest : string) :
  has_nonspace rest = true -> strip ("--- " ++ rest) = "--- " ++ rstrip rest.
Proof.
  intros H. unfold strip.
  change (lstrip ("--- " ++ rest)) with ("--- " ++ rest).
  now apply rstrip_app_keep.
Qed.

(** C10: the extractor returns either absent or a non-empty string that
    starts with the four characters [--- ]; so the truth test the controller
    applies to the result ([if not diff]) fails exactly on absence. *)
Theorem extract_unified_diff_truthy (text : string) :
  match extract_unified_diff text with
  | None => True
  | Some d => take 4 d = "--- " /\ is_empty d = false
  end
  /\ truthy (extract_unified_diff text) =
     match extract_unified_diff text with None => false | Some _ => true end.
Proof.
  assert (H : match extract_unified_diff text with
              | None => True
              | Some d => take 4 d = "--- " /\ is_empty d = false
              end).
  { unfold extract_unified_diff, Re.search.
    destruct (Re.search_from header_re true text 0) as [start|] eqn:E; [|exact I].
    destruct (search_from_sound _ _ _ _ _ E) as [b Hb].
    destruct (match_header_shape _ _ Hb) as [rest [Hs Hr]].
    rewrite Nat.sub_0_r in Hs. rewrite Hs, strip_header by assumption.
    split; reflexivity. }
  split; [exact H|].
  destruct (extract_unified_diff text) as [d|]; [|reflexivity].
  destruct H as [_ H]. cbn [truthy]. now rewrite H.
Qed.

(** ** Effects *)

Lemma bind_unfold {A B} (m : M A) (f : A -> M B) (h : list event) :
  bind m f h =
  match m h with
  | (Ret a, e1) => (fst (f a (h ++ e1)%list), (e1 ++ snd (f a (h ++ e1)%list))%list)
  | (Raise e, e1) => (Raise e, e1)
  end.
Proof.
  unfold bind. destruct (m h) as [[a|e] e1]; [|reflexivity].
  now destruct (f a (h ++ e1)%list).
Qed.



Lemma bind_returns {A B} (m : M A) (f : A -> M B) (h : list event) (b : B) :
  fst (bind m f h) = Ret b ->
  exists a, fst (m h) = Ret a /\ fst (f a (h ++ snd (m h))%list) = Ret b.
Proof.
  rewrite bind_unfold. destruct (m h) as [[a|e] e1]; cbn [fst snd].
  - intros H. now exists a.
  - discriminate.
Qed.

Lemma try_except_unfold {A} (m : M A) (k : exn -> M A) (h : list event) :
  try_except m k h =
  match m h with
  | (Ret a, e1) => (Ret a, e1)
  | (Raise e, e1) => (fst (k e (h ++ e1)%list), (e1 ++ snd (k e (h ++ e1)%list))%list)
  end.
Proof.
  unfold try_except. destruct (m h) as [[a|e] e1]; [reflexivity|].
  now destruct (k e (h ++ e1)%list).
Qed.

Lemma bind_inv {A B} (m : M A) (f : A -> M B) (h : list event) r ev :
  bind m f h = (r, ev) ->
  (exists a e1 e2,
      m h = (Ret a, e1) /\ f a (h ++ e1)%list = (r, e2) /\ ev = (e1 ++ e2)%list)
  \/ (exists e, m h = (Raise e, ev) /\ r = Raise e).
Proof.
  unfold bind. destruct (m h) as [[a|e] e1].
  - destruct (f a (h ++ e1)%list) as [r' e2] eqn:E. intros H.
    injection H as <- <-. left. now exists a, e1, e2.
  - intros H. injection H as <- <-. right. now exists e.
Qed.

Lemma try_except_inv {A} (m : M A) (k : exn -> M A) (h : list event) r ev :
  try_except m k h = (r, ev) ->
  (exists a, m h = (Ret a, ev) /\ r = Ret a)
  \/ (exists e e1 e2,
         m h = (Raise e, e1) /\ k e (h ++ e1)%list = (r, e2)
         /\ ev = (e1 ++ e2)%list).
Proof.
  unfold try_except. destruct (m h) as [[a|e] e1].
  - intros H. injection H as <- <-. left. now exists a.
  - destruct (k e (h ++ e1)%list) as [r' e2] eqn:E. intros H.
    injection H as <- <-. right. now exists e, e1, e2.
Qed.

Lemma finally_emit_inv {A} (m : M A) (ev0 : event) (h : list event) r ev :
  finally m (emit ev0) h = (r, ev) ->
  exists e1, m h = (r, e1) /\ ev = (e1 ++ [ev0])%list.
Proof.
  unfold finally, emit. destruct (m h) as [r' e1]. intros H.
  injection H as <- <-. now exists e1.
Qed.

Section Silent.

Variable P : event -> bool.

Lemma silent_ret {A} (a : A) : silent P (ret a).
Proof. intros h. reflexivity. Qed.

Lemma silent_raise {A} (e : exn) : silent P (@raise A e).
Proof. intros h. reflexivity. Qed.

Lemma silent_history : silent P history.
Proof. intros h. reflexivity. Qed.

Lemma silent_emit (ev : event) : P ev = false -> silent P (emit ev).
Proof. intros H h. cbn. now rewrite H. Qed.

Lemma silent_print (parts : list string) :
  (forall msg, P (EvPrint msg) = false) -> silent P (print parts).
Proof. intros H. apply silent_emit, H. Qed.

Lemma silent_bind {A B} (m : M A) (f : A -> M B) :
  silent P m -> (forall a, silent P (f a)) -> silent P (bind m f).
Proof.
  intros Hm Hf h. rewrite bind_unfold. specialize (Hm h).
  destruct (m h) as [[a|e] e1]; cbn [snd] in *; [|exact Hm].
  now rewrite filter_app, Hm, Hf.
Qed.

Lemma silent_try_except {A} (m : M A) (k : exn -> M A) :
  silent P m -> (forall e, silent P (k e)) -> silent P (try_except m k).
Proof.
  intros Hm Hk h. rewrite try_except_unfold. specialize (Hm h).
  destruct (m h) as [[a|e] e1]; cbn [snd] in *; [exact Hm|].
  now rewrite filter_app, Hm, Hk.
Qed.

Lemma silent_finally {A} (m : M A) (fin : M unit) :
  silent P m -> silent P fin -> silent P (finally m fin).
Proof.
  intros Hm Hf h. unfold finally. specialize (Hm h).
  destruct (m h) as [r e1]. specialize (Hf (h ++ e1)%list).
  destruct (fin (h ++ e1)%list) as [[u|e] e2]; cbn [snd] in *;
    now rewrite filter_app, Hm, Hf.
Qed.

End Silent.

(** Discharges [silent P m] for a concrete selector [P] by following the
    structure of [m]. *)
Ltac silent_step :=
  first
    [ apply silent_ret
    | apply silent_raise
    | apply silent_history
    | apply silent_emit; reflexivity
    | apply silent_print; intros; reflexivity
    | apply silent_bind; [|intros ?]
    | apply silent_try_except; [|intros ?]
    | apply silent_finally
    | match goal with
      | |- silent _ (match ?x with _ => _ end) => destruct x
      end ].

Ltac silent_auto := repeat silent_step.

Lemma queries_app (a b : list event) :
  queries (a ++ b) = queries a + queries b.
Proof. unfold queries. now rewrite filter_app, length_app. Qed.

Lemma builds_app (a b : list event) :
  builds (a ++ b) = builds a + builds b.
Proof. unfold builds. now rewrite filter_app, length_app. Qed.

Lemma silent_queries {A} (m : M A) (h : list event) :
  silent is_query m -> queries (snd (m h)) = 0.
Proof. intros H. unfold queries. now rewrite H. Qed.

Lemma silent_builds {A} (m : M A) (h : list event) :
  silent is_build m -> builds (snd (m h)) = 0.
Proof. intros H. unfold builds. now rewrite H. Qed.

(** ** What each routine emits *)

Section Emits.

Variable cfg : Config.
Variable env : Env.

Lemma run_silent (P : event -> bool) cmd capture check :
  (forall c b, P (EvRun c b) = false) -> silent P (run cfg env cmd capture check).
Proof.
  intros H. unfold run. apply silent_bind; [apply silent_history|intros h].
  apply silent_bind; [apply silent_emit, H|intros _].
  silent_auto.
Qed.

Lemma get_repo_tree_silent (P : event -> bool) :
  (forall c b, P (EvRun c b) = false) -> silent P (get_repo_tree cfg env).
Proof.
  intros H. unfold get_repo_tree.
  apply silent_bind; [now apply run_silent|intros]. apply silent_ret.
Qed.

Lemma get_recent_diff_silent (P : event -> bool) :
  (forall c b, P (EvRun c b) = false) -> silent P (get_recent_diff cfg env).
Proof.
  intros H. unfold get_recent_diff.
  apply silent_bind; [now apply run_silent|intros out].
  destruct (String.eqb _ _); [apply silent_ret|].
  apply silent_bind; [now apply run_silent|intros]. apply silent_ret.
Qed.

Lemma tail_build_log_silent (P : event -> bool) :
  silent P (tail_build_log env).
Proof. unfold tail_build_log. silent_auto. Qed.

Lemma run_build_no_query : silent is_query (run_build cfg env).
Proof. unfold run_build. silent_auto. Qed.

Lemma main_setup_silent (P : event -> bool) :
  (forall c b, P (EvRun c b) = false) -> (forall msg, P (EvPrint msg) = false) ->
  silent P (main_setup cfg env).
Proof.
  intros H Hp. unfold main_setup, git.
  repeat first [ apply run_silent; exact H
               | apply silent_print; exact Hp
               | apply silent_ret
               | apply silent_history
               | apply silent_bind; [|intros ?]
               | match goal with
                 | |- silent _ (if ?x then _ else _) => destruct x
                 end ].
Qed.

Lemma apply_patch_silent (P : event -> bool) diff :
  (forall c b, P (EvRun c b) = false) ->
  (forall l e, P (EvPrintExn l e) = false) ->
  (forall n c, P (EvTmpWrite n c) = false) ->
  (forall n, P (EvTmpUnlink n) = false) ->
  silent P (apply_patch cfg env diff).
Proof.
  intros H He Hw Hu. unfold apply_patch, git.
  repeat first [ apply run_silent; exact H
               | apply silent_emit; first [apply He | apply Hw | apply Hu]
               | apply silent_ret
               | apply silent_history
               | apply silent_bind; [|intros ?]
               | apply silent_try_except; [|intros ?]
               | apply silent_finally ].
Qed.

Lemma _call_openai_no_query prompt : silent is_query (_call_openai cfg env prompt).
Proof. unfold _call_openai. silent_auto. Qed.

Lemma _call_llama_no_query prompt : silent is_query (_call_llama cfg env prompt).
Proof. unfold _call_llama. silent_auto. Qed.

Lemma _call_openai_no_llama prompt : silent is_llama (_call_openai cfg env prompt).
Proof. unfold _call_openai. silent_auto. Qed.

(** One call of the model client is one model query. *)
Lemma call_llm_one_query prompt h :
  queries (snd (call_llm cfg env prompt h)) = 1.
Proof.
  unfold call_llm. rewrite bind_unfold. cbn [emit fst snd].
  rewrite queries_app. cbn [queries filter is_query List.length].
  match goal with |- 1 + queries (snd (?m ?h')) = 1 =>
    assert (S : silent is_query m); [|now rewrite (silent_queries m h' S)] end.
  repeat first [ apply _call_openai_no_query
               | apply _call_llama_no_query
               | apply silent_try_except; [|intros ?]
               | apply silent_bind; [|intros ?]
               | apply silent_print; intros; reflexivity
               | apply silent_raise
               | match goal with
                 | |- silent _ (if ?x then _ else _) => destruct x
                 | |- silent _ (match ?x with _ => _ end) => destruct x
                 end ].
Qed.

End Emits.

(** ** The fix loop *)

Lemma bounded_silent {A} (n : nat) (m : M A) :
  silent is_query m -> bounded n m.
Proof. intros H h. rewrite silent_queries by assumption. lia. Qed.

Lemma bounded_bind {A B} (k n : nat) (m : M A) (f : A -> M B) :
  bounded k m -> (forall a, bounded n (f a)) -> bounded (k + n) (bind m f).
Proof.
  intros Hm Hf h. rewrite bind_unfold. specialize (Hm h).
  destruct (m h) as [[a|e] e1]; cbn [snd] in *; [|lia].
  rewrite queries_app. specialize (Hf a (h ++ e1)%list). lia.
Qed.

Lemma bounded_bind_silent {A B} (n : nat) (m : M A) (f : A -> M B) :
  silent is_query m -> (forall a, bounded n (f a)) -> bounded n (bind m f).
Proof.
  intros Hm Hf. apply (bounded_bind 0 n); [|exact Hf].
  now apply bounded_silent.
Qed.

Lemma bounded_then_silent {A B} (n : nat) (m : M A) (f : A -> M B) :
  bounded n m -> (forall a, silent is_query (f a)) -> bounded n (bind m f).
Proof.
  intros Hm Hf h.
  pose proof (bounded_bind n 0 m f Hm (fun a => bounded_silent 0 _ (Hf a)) h).
  lia.
Qed.

Section FixLoop.

Variable cfg : Config.
Variable env : Env.

Ltac quiet :=
  first [ apply get_repo_tree_silent; reflexivity
        | apply get_recent_diff_silent; reflexivity
        | apply tail_build_log_silent
        | apply run_build_no_query
        | apply apply_patch_silent; reflexivity
        | apply main_setup_silent; reflexivity
        | silent_auto; fail ].

(** The queries of the loop from [attempts] on: the remaining budget
    bounds them, whatever the iteration bound of the model is. *)
Lemma fix_loop_bounded (fuel : nat) :
  forall attempts : Z,
    bounded (Z.to_nat (MAX_ATTEMPTS cfg - attempts)) (fix_loop cfg env fuel attempts).
Proof.
  induction fuel as [|fuel IH]; intros a; cbn [fix_loop];
    destruct (a <? MAX_ATTEMPTS cfg)%Z eqn:E;
    try (apply bounded_silent; silent_auto; fail).
  apply Z.ltb_lt in E.
  replace (Z.to_nat (MAX_ATTEMPTS cfg - a))
    with (1 + Z.to_nat (MAX_ATTEMPTS cfg - (a + 1))) by lia.
  do 4 (apply bounded_bind_silent; [quiet|intros ?]).
  apply bounded_bind; [intros h; rewrite call_llm_one_query; lia|intros llm_out].
  destruct (negb (truthy (extract_unified_diff llm_out)));
    [apply bounded_silent; silent_auto|].
  do 4 (apply bounded_bind_silent; [quiet|intros ?]).
  destruct (negb _); [apply bounded_silent; silent_auto|].
  apply bounded_bind_silent; [quiet|intros code].
  destruct (code =? 0)%Z; [apply bounded_silent; silent_auto|].
  apply IH.
Qed.

Lemma main_bounded : bounded (Z.to_nat (MAX_ATTEMPTS cfg)) (main cfg env).
Proof.
  unfold main.
  do 2 (apply bounded_bind_silent; [quiet|intros ?]).
  destruct (_ =? 0)%Z; [apply bounded_silent; silent_auto|].
  apply bounded_then_silent.
  - pose proof (fix_loop_bounded (Z.to_nat (MAX_ATTEMPTS cfg)) 0) as Hb.
    now rewrite Z.sub_0_r in Hb.
  - intros r. destruct r; silent_auto.
Qed.

(** The iteration bound [main] passes is never reached. *)
Lemma fix_loop_fuel (fuel : nat) :
  forall (attempts : Z) (h : list event),
    Z.to_nat (MAX_ATTEMPTS cfg - attempts) <= fuel ->
    fst (fix_loop cfg env fuel attempts h) <> Ret OutOfFuel.
Proof.
  induction fuel as [|fuel IH]; intros a h Hf; cbn [fix_loop];
    destruct (a <? MAX_ATTEMPTS cfg)%Z eqn:E; try discriminate.
  - apply Z.ltb_lt in E. lia.
  - apply Z.ltb_lt in E. intros H.
    do 5 (apply bind_returns in H; destruct H as (? & _ & H)).
    destruct (negb (truthy _)).
    + apply bind_returns in H. destruct H as (? & _ & H). discriminate.
    + do 4 (apply bind_returns in H; destruct H as (? & _ & H)).
      destruct (negb _).
      * apply bind_returns in H. destruct H as (? & _ & H). discriminate.
      * apply bind_returns in H. destruct H as (code & _ & H).
        destruct (code =? 0)%Z.
        -- apply bind_returns in H. destruct H as (? & _ & H). discriminate.
        -- revert H. apply IH. lia.
Qed.

(** [main] ends with a return code or an exception. *)
Lemma main_returns_code (h : list event) : fst (main cfg env h) <> Ret None.
Proof.
  unfold main. intros H.
  do 2 (apply bind_returns in H; destruct H as (? & _ & H)).
  destruct (_ =? 0)%Z.
  - apply bind_returns in H. destruct H as (? & _ & H). discriminate.
  - apply bind_returns in H. destruct H as (r & Hr & H).
    destruct r.
    + do 2 (apply bind_returns in H; destruct H as (? & _ & H)). discriminate.
    + discriminate.
    + revert Hr. apply fix_loop_fuel. rewrite Z.sub_0_r. lia.
Qed.

End FixLoop.

(** ** Configuration *)

Example load_config_default : load_config env_green = Ret (default_cfg 3).
Proof. reflexivity. Qed.

Example load_config_negative : load_config env_negative = Ret (default_cfg (-1)).
Proof. reflexivity. Qed.

Example py_int_examples :
  py_int " 12 " = Some 12%Z /\ py_int "+1_000" = Some 1000%Z
  /\ py_int "-1" = Some (-1)%Z /\ py_int "1__0" = None /\ py_int "" = None
  /\ py_int "three" = None.
Proof. repeat split; reflexivity. Qed.

Lemma load_config_attempts_default (env : Env) :
  environ env "AI_BUILDER_ATTEMPTS" = None ->
  exists cfg, load_config env = Ret cfg /\ MAX_ATTEMPTS cfg = 3%Z.
Proof.
  intros H. unfold load_config, getenv at 1. rewrite H.
  eexists. split; reflexivity.
Qed.

(** ** Model queries and the attempt budget *)

(** C8, as stated, fails for a negative budget: with AI_BUILDER_ATTEMPTS=-1
    the loop body never runs, so the run makes 0 queries, and 0 is not at
    most -1. *)
Lemma negative_budget_run :
  load_config env_negative = Ret (default_cfg (-1))
  /\ queries (snd (main (default_cfg (-1)) env_negative [])) = 0
  /\ ~ (Z.of_nat (queries (snd (main (default_cfg (-1)) env_negative [])))
        <= MAX_ATTEMPTS (default_cfg (-1)))%Z.
Proof.
  split; [reflexivity|]. split; [reflexivity|].
  vm_compute. intros H. now apply H.
Qed.

(** C8 (amended): in every run the number of model queries is at most
    MAX_ATTEMPTS when that is not negative, and zero otherwise, that is at
    most max(0, MAX_ATTEMPTS); and MAX_ATTEMPTS is 3 when
    AI_BUILDER_ATTEMPTS is not set. *)
Theorem queries_within_budget (cfg : Config) (env : Env) (h : list event) :
  (Z.of_nat (queries (snd (main cfg env h))) <= Z.max 0 (MAX_ATTEMPTS cfg))%Z
  /\ (environ env "AI_BUILDER_ATTEMPTS" = None ->
      exists cfg0, load_config env = Ret cfg0 /\ MAX_ATTEMPTS cfg0 = 3%Z).
Proof.
  split; [|apply load_config_attempts_default].
  pose proof (main_bounded cfg env h). lia.
Qed.

Lemma queries_within_budget_witness :
  environ env_green "AI_BUILDER_ATTEMPTS" = None
  /\ (Z.of_nat (queries (snd (main (default_cfg 3) env_green []))) <= Z.max 0 3)%Z
  /\ exists cfg0, load_config env_green = Ret cfg0 /\ MAX_ATTEMPTS cfg0 = 3%Z.
Proof.
  split; [reflexivity|].
  destruct (queries_within_budget (default_cfg 3) env_green []) as [H1 H2].
  split; [exact H1 | apply H2; reflexivity].
Defined.

(** ** Routines that return *)





Lemma print_eq (parts : list string) (h : list event) :
  print parts h = (Ret tt, [EvPrint (join " " parts)]).
Proof. reflexivity. Qed.


(** ** One child process *)

Section Run.

Variable cfg : Config.
Variable env : Env.

Lemma run_unfold (cmd : string) (capture : bool) (h : list event) :
  run cfg env cmd capture false h =
  (match sh env h (Some (PROJECT_ROOT cfg)) cmd with
   | Some p =>
       if capture then
         match captured_text env p with
         | Some text => Ret {| cp_returncode := returncode p; cp_stdout := Some text |}
         | None => Raise (UnicodeDecodeError (merged p))
         end
       else Ret {| cp_returncode := returncode p; cp_stdout := None |}
   | None => Raise (OSError cmd)
   end, [EvRun cmd capture]).
Proof.
  unfold run. rewrite bind_unfold. cbn [history fst snd].
  rewrite bind_unfold. cbn [emit fst snd andb].
  destruct (sh env h (Some (PROJECT_ROOT cfg)) cmd) as [p|]; [|reflexivity].
  destruct capture; [|reflexivity].
  now destruct (captured_text env p).
Qed.

Lemma run_inv_ret cmd capture h a e1 :
  run cfg env cmd capture false h = (Ret a, e1) ->
  e1 = [EvRun cmd capture]
  /\ sh env h (Some (PROJECT_ROOT cfg)) cmd <> None.
Proof.
  rewrite run_unfold. intros H. injection H as H <-. split; [reflexivity|].
  now destruct (sh env h (Some (PROJECT_ROOT cfg)) cmd).
Qed.

Lemma run_inv_raise cmd capture h e e1 :
  run cfg env cmd capture false h = (Raise e, e1) -> e1 = [EvRun cmd capture].
Proof. rewrite run_unfold. intros H. now injection H as _ <-. Qed.

(** Without [check], [run] raises only when the child cannot be started or,
    in capture mode, when what it printed is no text. *)
Lemma run_raise_cause cmd capture h e e1 :
  run cfg env cmd capture false h = (Raise e, e1) ->
  sh env h (Some (PROJECT_ROOT cfg)) cmd = None
  \/ (capture = true
      /\ exists p, sh env h (Some (PROJECT_ROOT cfg)) cmd = Some p
                   /\ decode env (merged p) = None).
Proof.
  rewrite run_unfold. intros H. injection H as H _.
  destruct (sh env h (Some (PROJECT_ROOT cfg)) cmd) as [p|]; [|now left].
  destruct capture; [|discriminate H].
  right. split; [reflexivity|]. exists p. split; [reflexivity|].
  unfold captured_text in H. now destruct (decode env (merged p)).
Qed.

(** A command that is not captured raises only when it cannot be started. *)
Lemma run_raise_spawn cmd h e e1 :
  run cfg env cmd false false h = (Raise e, e1) ->
  sh env h (Some (PROJECT_ROOT cfg)) cmd = None.
Proof.
  intros H. apply run_raise_cause in H.
  destruct H as [H | [H _]]; [exact H | discriminate H].
Qed.

End Run.

Section ShellStarts.

Variable cfg : Config.
Variable env : Env.

(** The shell can always be started. *)
Hypothesis shell_starts : forall h cwd cmd, sh env h cwd cmd <> None.

(** What the children print is text in the locale's encoding. *)
Hypothesis prints_text :
  forall h cwd cmd p, sh env h cwd cmd = Some p -> decode env (merged p) <> None.






(** Every build fails. *)
Hypothesis build_fails :
  forall h p,
    sh env h (Some (PROJECT_ROOT cfg)) (BUILD_CMD cfg) = Some p ->
    returncode p <> 0%Z.


(** Every response of the model client is malformed. *)
Hypothesis malformed :
  forall prompt h text ev,
    call_llm cfg env prompt h = (Ret text, ev) ->
    extract_unified_diff text = None.



End ShellStarts.

(** ** The controller *)

Example run_green :
  main (default_cfg 3) env_green [] =
  (Ret (Some 0%Z),
   [EvPrint "== AI Autobuilder (with OpenAI→llama fallback) ==";
    EvPrint "Project: /work";
    EvPrint "Provider: openai, Model: gpt-4o-mini, Fallback: llama";
    EvLogOpen;
    EvBuild "./gradlew assembleDebug --stacktrace"
            ("> Task :app:compileDebugKotlin" ++ String nl "");
    EvPrint "✅ Build already succeeds. Nothing to do."]).
Proof. reflexivity. Qed.







(** ** Patch applier *)

Lemma splits_where_complete {A} (P : A -> bool) (l pre post : list A) (x : A) :
  l = (pre ++ x :: post)%list -> P x = true -> In (pre, x) (splits_where P l).
Proof.
  intros -> Hx. induction pre as [|y pre IH]; cbn [app splits_where].
  - rewrite Hx. now left.
  - apply in_or_app. right.
    apply (in_map (fun pe => (y :: fst pe, snd pe)) _ (pre, x) IH).
Qed.

(** *** The snapshot command, as the shell reads it *)

Lemma parse_git_add :
  Shell.parse "git add -A"
  = Some {| Shell.first := {| Shell.argv := ["git"; "add"; "-A"];
                              Shell.redirect := None |};
            Shell.rest := [] |}.
Proof. vm_compute. reflexivity. Qed.

Lemma parse_snapshot :
  Shell.parse "git diff --staged > .pre_ai_fix.patch || true"
  = Some {| Shell.first := {| Shell.argv := ["git"; "diff"; "--staged"];
                              Shell.redirect := Some ".pre_ai_fix.patch" |};
            Shell.rest := [(Shell.OrIf, {| Shell.argv := ["true"];
                                           Shell.redirect := None |})] |}.
Proof. vm_compute. reflexivity. Qed.

(** A command line with quotes, or with a builtin that changes the shell
    itself, is outside the fragment. *)
Example parse_outside :
  Shell.parse ("git commit -m " ++ dq ++ "ai-autobuilder: apply automatic fix"
                 ++ dq ++ " || true") = None
  /\ Shell.parse "cd build && make > log" = None
  /\ Shell.parse "git diff>.pre_ai_fix.patch" = None.
Proof. vm_compute. repeat split; reflexivity. Qed.

Lemma sh_c_git_add (prog : Shell.programs) (fs : Shell.FS) :
  Shell.sh_c prog "git add -A" fs = Some (prog ["git"; "add"; "-A"] fs).
Proof. unfold Shell.sh_c. rewrite parse_git_add. reflexivity. Qed.

(** The snapshot command line always exits with 0; it leaves the output of
    [git diff --staged] in the file, unless the file cannot be created. *)
Lemma sh_c_snapshot (prog : Shell.programs) (fs : Shell.FS) :
  exists o,
    Shell.sh_c prog "git diff --staged > .pre_ai_fix.patch || true" fs = Some o
    /\ Shell.status o = 0%Z
    /\ Shell.files o =
       if Shell.refuses fs ".pre_ai_fix.patch" then fs
       else
         let d := prog ["git"; "diff"; "--staged"]
                       (Shell.write ".pre_ai_fix.patch" "" fs) in
         Shell.write ".pre_ai_fix.patch" (Shell.printed d) (Shell.files d).
Proof.
  unfold Shell.sh_c. rewrite parse_snapshot. cbn [option_map].
  eexists. split; [reflexivity|].
  unfold Shell.exec, Shell.exec_simple.
  cbn [Shell.first Shell.rest Shell.redirect Shell.argv Shell.run_words].
  destruct (Shell.refuses fs ".pre_ai_fix.patch").
  - split; reflexivity.
  - cbn [Shell.exec_rest Shell.status Shell.files Shell.printed].
    destruct (Shell.status _ =? 0)%Z eqn:Est; cbn [negb].
    + cbn [Shell.status Shell.files]. apply Z.eqb_eq in Est. now split.
    + split; reflexivity.
Qed.

Lemma snapshot_files (prog : Shell.programs) (fs : Shell.FS) (tmp diff : string) :
  let add := EvRun "git add -A" false in
  let snapshot := EvRun "git diff --staged > .pre_ai_fix.patch || true" false in
  let staged := Shell.files (prog ["git"; "add"; "-A"] (Shell.write tmp diff fs)) in
  Shell.fs_after prog [EvTmpWrite tmp diff; add] fs = Some staged
  /\ (Shell.refuses staged ".pre_ai_fix.patch" = false ->
      exists fs',
        Shell.fs_after prog [EvTmpWrite tmp diff; add; snapshot] fs = Some fs'
        /\ Shell.content fs' ".pre_ai_fix.patch"
           = Some (Shell.printed
                     (prog ["git"; "diff"; "--staged"]
                           (Shell.write ".pre_ai_fix.patch" "" staged))))
  /\ (Shell.refuses staged ".pre_ai_fix.patch" = true ->
      Shell.fs_after prog [EvTmpWrite tmp diff; add; snapshot] fs = Some staged).
Proof.
  cbn zeta. cbn [Shell.fs_after]. rewrite sh_c_git_add.
  set (staged := Shell.files (prog ["git"; "add"; "-A"] (Shell.write tmp diff fs))).
  destruct (sh_c_snapshot prog staged) as (o & -> & _ & Hf).
  split; [reflexivity|].
  split; intros Hr; rewrite Hr in Hf; rewrite Hf.
  - eexists. split; [reflexivity|].
    cbn [Shell.write Shell.content]. now rewrite String.eqb_refl.
  - reflexivity.
Qed.

Section PatchApplier.

Variable cfg : Config.
Variable env : Env.

Ltac inv_run E :=
  apply bind_inv in E;
  let a := fresh "a" in
  let e1 := fresh "e" in
  let e2 := fresh "e" in
  let R := fresh "R" in
  let x := fresh "x" in
  let Hr := fresh "Hr" in
  destruct E as [(a & e1 & e2 & R & E & Hr) | (x & R & Hr)];
  [ apply run_inv_ret in R; destruct R as [-> R]; subst
  | pose proof (run_raise_cause _ _ _ _ _ _ _ R);
    apply run_inv_raise in R; subst; try discriminate ].

Ltac norm_history H :=
  rewrite <- ?app_assoc in H; rewrite ?app_nil_r in H; cbn [app] in H.

(** C4 (amended): in every invocation of the patch applier, whatever the
    environment answers, when the apply step is attempted the applier has
    run, in this order and to their end, [git add -A] and
    [git diff --staged > .pre_ai_fix.patch || true], whether the apply then
    succeeds or fails.  As the shell reads that second command line, and
    provided it can create .pre_ai_fix.patch, the file then holds exactly
    what [git diff --staged] printed in the tree [git add -A] left, whatever
    the exit status of either; when the shell cannot create the file, the
    failure is masked by [|| true], nothing is written, and the apply step
    is attempted all the same. *)
Theorem snapshot_before_apply
    (prog : Shell.programs) (fs : Shell.FS)
    (diff : string) (h pre post : list event) (ev : event) :
  snd (apply_patch cfg env diff h) = (pre ++ ev :: post)%list ->
  is_apply_step ev = true ->
  let tmp := tmp_name env h in
  let add := EvRun "git add -A" false in
  let snapshot := EvRun "git diff --staged > .pre_ai_fix.patch || true" false in
  let staged := Shell.files (prog ["git"; "add"; "-A"] (Shell.write tmp diff fs)) in
  pre = [EvTmpWrite tmp diff; add; snapshot]
  /\ sh env (h ++ [EvTmpWrite tmp diff])%list (Some (PROJECT_ROOT cfg))
        "git add -A" <> None
  /\ sh env (h ++ [EvTmpWrite tmp diff; add])%list (Some (PROJECT_ROOT cfg))
        "git diff --staged > .pre_ai_fix.patch || true" <> None
  /\ Shell.fs_after prog [EvTmpWrite tmp diff; add] fs = Some staged
  /\ (Shell.refuses staged ".pre_ai_fix.patch" = false ->
      exists fs',
        Shell.fs_after prog pre fs = Some fs'
        /\ Shell.content fs' ".pre_ai_fix.patch"
           = Some (Shell.printed
                     (prog ["git"; "diff"; "--staged"]
                           (Shell.write ".pre_ai_fix.patch" "" staged))))
  /\ (Shell.refuses staged ".pre_ai_fix.patch" = true ->
      Shell.fs_after prog pre fs = Some staged).
Proof.
  destruct (apply_patch cfg env diff h) as [r tr] eqn:E. cbn [snd].
  intros Htr Hev. cbn zeta.
  assert (Hpre : pre = [EvTmpWrite (tmp_name env h) diff; EvRun "git add -A" false;
                        EvRun snapshot_cmd false]
                 /\ sh env (h ++ [EvTmpWrite (tmp_name env h) diff])%list
                       (Some (PROJECT_ROOT cfg)) "git add -A" <> None
                 /\ sh env (h ++ [EvTmpWrite (tmp_name env h) diff;
                                  EvRun "git add -A" false])%list
                       (Some (PROJECT_ROOT cfg)) snapshot_cmd <> None).
  { unfold apply_patch, git in E.
    apply bind_inv in E.
    destruct E as [(h0 & e1 & e2 & E1 & E & ->) | (e & E1 & _)]; [|discriminate E1].
    injection E1 as <- <-.
    apply bind_inv in E.
    destruct E as [(u & e1 & e3 & E1 & E & ->) | (e & E1 & _)]; [|discriminate E1].
    injection E1 as <-.
    apply finally_emit_inv in E. destruct E as (e4 & E & ->).
    apply try_except_inv in E.
    destruct E as [(a & E & ->) | (e & e5 & e6 & E & Eh & ->)].
    all: subst e1.
    all: repeat inv_run E.
    all: try discriminate.
    all: try (unfold ret in E; injection E as <- <-).
    all: try (cbn in Eh; injection Eh as <- <-).
    all: apply (splits_where_complete is_apply_step) in Htr; [|exact Hev].
    all: cbn in Htr.
    all: try contradiction.
    all: destruct Htr as [Htr|[]]; injection Htr as <- <-.
    all: split; [reflexivity|].
    all: repeat match goal with
                | R : sh env _ _ _ <> None |- _ => norm_history R; revert R
                end.
    all: intros; split; assumption. }
  destruct Hpre as (-> & Ha & Hs).
  split; [reflexivity|]. split; [exact Ha|]. split; [exact Hs|].
  apply snapshot_files.
Qed.

(** The patch applier reports failure only when a child process could not
    be started or printed what is no text; the exit code of [git apply]
    plays no part. *)
Lemma apply_patch_result (diff : string) (h : list event) :
  fst (apply_patch cfg env diff h) = Ret true
  \/ (fst (apply_patch cfg env diff h) = Ret false
      /\ ((exists h' cmd, sh env h' (Some (PROJECT_ROOT cfg)) cmd = None)
          \/ (exists h' cmd p,
                 sh env h' (Some (PROJECT_ROOT cfg)) cmd = Some p
                 /\ decode env (merged p) = None))).
Proof.
  destruct (apply_patch cfg env diff h) as [r tr] eqn:E. cbn [fst].
  unfold apply_patch, git in E.
  apply bind_inv in E.
  destruct E as [(h0 & e1 & e2 & E1 & E & ->) | (e & E1 & _)]; [|discriminate E1].
  injection E1 as <- <-.
  apply bind_inv in E.
  destruct E as [(u & e1 & e3 & E1 & E & ->) | (e & E1 & _)]; [|discriminate E1].
  injection E1 as <-.
  apply finally_emit_inv in E. destruct E as (e4 & E & ->).
  apply try_except_inv in E.
  destruct E as [(a & E & ->) | (e & e5 & e6 & E & Eh & ->)].
  all: repeat inv_run E.
  all: try discriminate.
  all: try (unfold ret in E; injection E as <- <-; now left).
  all: cbn in Eh; injection Eh as <- <-; right; split; [reflexivity|].
  all: match goal with
       | H : sh env _ _ _ = None \/ _ |- _ =>
           destruct H as [H | (_ & p & H1 & H2)]; [left | right]; eauto
       end.
Qed.


End PatchApplier.

Lemma snapshot_before_apply_witness :
  exists fs',
    Shell.fs_after Shell.toy_git
      [EvTmpWrite "/tmp/tmpk3v9.patch" sample_diff; EvRun "git add -A" false;
       EvRun "git diff --staged > .pre_ai_fix.patch || true" false]
      Shell.small_tree = Some fs'
    /\ Shell.content fs' ".pre_ai_fix.patch" = Some "apply plugin".
Proof.
  destruct (snapshot_before_apply (default_cfg 3) env_reject
              Shell.toy_git Shell.small_tree sample_diff []
              [EvTmpWrite "/tmp/tmpk3v9.patch" sample_diff; EvRun "git add -A" false;
               EvRun "git diff --staged > .pre_ai_fix.patch || true" false]
              [EvRun "git add -A" false;
               EvRun ("git commit -m " ++ dq ++ "ai-autobuilder: apply automatic fix"
                        ++ dq ++ " || true") false;
               EvTmpUnlink "/tmp/tmpk3v9.patch"]
              (EvRun (apply_cmd "/tmp/tmpk3v9.patch") true)
              eq_refl eq_refl) as (_ & _ & _ & _ & H & _).
  exact (H eq_refl).
Defined.

(** C4, as stated, fails: where .pre_ai_fix.patch cannot be created, the
    shell's complaint is masked by [|| true], [run] returns, and the applier
    goes on to [git apply] with no snapshot written. *)
Lemma snapshot_not_written :
  exists pre ev post fs',
    snd (apply_patch (default_cfg 3) env_reject sample_diff [])
      = (pre ++ ev :: post)%list
    /\ ev = EvRun "git apply --reject --whitespace=fix /tmp/tmpk3v9.patch" true
    /\ Shell.fs_after Shell.toy_git pre Shell.locked_tree = Some fs'
    /\ Shell.content fs' ".pre_ai_fix.patch" = None.
Proof.
  exists [EvTmpWrite "/tmp/tmpk3v9.patch" sample_diff; EvRun "git add -A" false;
          EvRun "git diff --staged > .pre_ai_fix.patch || true" false].
  do 3 eexists.
  split; [reflexivity|]. split; [reflexivity|].
  split; [reflexivity|]. reflexivity.
Qed.

(** C3 (what the code does): in [env_reject] every build fails, the model
    returns a diff and [git apply] exits with code 1 on it.  The patch applier
    still reports success, and the controller goes on: three queries and
    four builds instead of an abort after the first rejected diff. *)
Theorem rejected_patch_reported_applied :
  sh env_reject [] (Some "/work") (apply_cmd "/tmp/tmpk3v9.patch")
    = Some (err_proc 1 ("error: patch failed: build.gradle:1" ++ String nl ""))
  /\ fst (apply_patch (default_cfg 3) env_reject sample_diff []) = Ret true
  /\ fst (main (default_cfg 3) env_reject []) = Ret (Some 1%Z)
  /\ queries (snd (main (default_cfg 3) env_reject [])) = 3
  /\ builds (snd (main (default_cfg 3) env_reject [])) = 4.
Proof. repeat split; reflexivity. Qed.

(** When a child process cannot be started the applier does report failure,
    and the controller stops after that attempt. *)
Example unstartable_apply_stops :
  let env := sample_env with_key
               (fun h cwd cmd => if prefix "git apply" cmd then None
                                 else sample_sh 1 0 h cwd cmd)
               (post_text sample_diff) in
  fst (apply_patch (default_cfg 3) env sample_diff []) = Ret false
  /\ fst (main (default_cfg 3) env []) = Ret (Some 1%Z)
  /\ queries (snd (main (default_cfg 3) env [])) = 1
  /\ builds (snd (main (default_cfg 3) env [])) = 1.
Proof. repeat split; reflexivity. Qed.

(** ** Model client *)

Section ModelClient.

Variable cfg : Config.
Variable env : Env.


(** A response with status 400 or more makes the primary call raise the
    provider error, after logging it. *)
Lemma _call_openai_provider_error (prompt key : string) (h : list event) r :
  environ env "OPENAI_API_KEY" = Some key ->
  post env h (openai_request cfg env key prompt) = Some r ->
  (400 <= status_code r)%Z ->
  _call_openai cfg env prompt h =
  (Raise (RuntimeError ("openai_error:" ++ err_dump r)),
   [EvPost (openai_request cfg env key prompt);
    EvPrint (join " " ["OpenAI API error:"; err_dump_indent r])]).
Proof.
  intros Hkey Hpost Hst. apply Z.leb_le in Hst.
  unfold _call_openai. rewrite Hkey.
  rewrite bind_unfold. cbn [history fst snd].
  rewrite bind_unfold. cbn [emit fst snd app].
  rewrite Hpost, Hst. reflexivity.
Qed.

(** The failures of the primary call. *)
Lemma _call_openai_raises (prompt : string) (h : list event) e ev :
  _call_openai cfg env prompt h = (Raise e, ev) ->
  e = KeyError "OPENAI_API_KEY" \/ e = RequestException
  \/ e = ResponseShapeError
  \/ exists r, e = RuntimeError ("openai_error:" ++ err_dump r).
Proof.
  unfold _call_openai.
  destruct (environ env "OPENAI_API_KEY") as [key|];
    [|intros H; injection H as <- _; now left].
  rewrite bind_unfold. cbn [history fst snd].
  rewrite bind_unfold. cbn [emit fst snd app].
  destruct (post env h (openai_request cfg env key prompt)) as [r|];
    [|intros H; injection H as <- _; right; now left].
  destruct (400 <=? status_code r)%Z.
  - intros H. injection H as <- _. right. right. right. now exists r.
  - destruct (content r); intros H; [discriminate|].
    injection H as <- _. right. right. now left.
Qed.



(** C7: when the primary call fails with anything but the provider error
    (a missing credential, for instance), the model client raises that same
    failure at once and the fallback is not run. *)
Theorem no_fallback_on_client_error (prompt : string) (h : list event) e ev :
  PROVIDER cfg = "openai" ->
  _call_openai cfg env prompt (h ++ [EvCallLLM prompt])%list = (Raise e, ev) ->
  (forall dump, e <> RuntimeError ("openai_error:" ++ dump)) ->
  call_llm cfg env prompt h = (Raise e, EvCallLLM prompt :: ev)
  /\ llama_calls (EvCallLLM prompt :: ev) = [].
Proof.
  intros Hp Hc Hn.
  pose proof (_call_openai_no_llama cfg env prompt (h ++ [EvCallLLM prompt])%list)
    as Hl.
  rewrite Hc in Hl. cbn [snd] in Hl.
  split; [|exact Hl].
  unfold call_llm. rewrite bind_unfold. cbn [emit fst snd].
  rewrite Hp, String.eqb_refl. rewrite try_except_unfold, Hc.
  destruct (_call_openai_raises _ _ _ _ Hc) as [-> | [-> | [-> | [r ->]]]];
    cbn [raise fst snd app]; rewrite ?app_nil_r; try reflexivity.
  now destruct (Hn (err_dump r)).
Qed.

End ModelClient.


Lemma no_fallback_on_client_error_witness :
  FALLBACK_PROVIDER (default_cfg 3) = "llama"
  /\ call_llm (default_cfg 3) env_no_key "fix the build" []
     = (Raise (KeyError "OPENAI_API_KEY"), [EvCallLLM "fix the build"])
  /\ llama_calls [EvCallLLM "fix the build"] = [].
Proof.
  split; [reflexivity|].
  apply (no_fallback_on_client_error (default_cfg 3) env_no_key
           "fix the build" [] (KeyError "OPENAI_API_KEY") []).
  - reflexivity.
  - reflexivity.
  - intros dump. discriminate.
Defined.

(** ** Context collector *)

Lemma has_nonspace_universal_newlines (n : nat) :
  forall s, String.length s <= n ->
            has_nonspace (universal_newlines s) = has_nonspace s.
Proof.
  induction n as [|n IH]; intros s Hn.
  - destruct s; [reflexivity | cbn in Hn; lia].
  - destruct s as [|c s]; [reflexivity|]. cbn [String.length] in Hn.
    cbn [universal_newlines]. destruct (Ascii.eqb c cr) eqn:Ec.
    + apply Ascii.eqb_eq in Ec. subst c.
      destruct s as [|d s'].
      * reflexivity.
      * cbn [String.length] in Hn. destruct (Ascii.eqb d nl) eqn:Ed.
        -- apply Ascii.eqb_eq in Ed. subst d.
           cbn [has_nonspace]. rewrite IH by lia. reflexivity.
        -- cbn [has_nonspace]. rewrite IH by (cbn [String.length]; lia).
           reflexivity.
    + cbn [has_nonspace]. rewrite IH by lia. reflexivity.
Qed.

Lemma lstrip_nonspace_head (s : string) :
  has_nonspace s = true ->
  exists c r, lstrip s = String c r /\ isspace c = false
              /\ has_nonspace (String c r) = true.
Proof.
  induction s as [|c s IH]; cbn [has_nonspace lstrip]; [discriminate|].
  destruct (isspace c) eqn:E; cbn [negb orb]; intros H.
  - exact (IH H).
  - exists c, s. cbn [has_nonspace]. rewrite E. auto.
Qed.

Lemma strip_nonspace_head (s : string) :
  has_nonspace s = true ->
  exists c r, strip s = String c r /\ isspace c = false.
Proof.
  intros H. destruct (lstrip_nonspace_head s H) as (c & r & E & Hc & _).
  unfold strip. rewrite E. cbn [rstrip]. rewrite Hc, andb_false_r.
  now exists c, (rstrip r).
Qed.

Lemma linebreak_isspace (c : ascii) : islinebreak c = true -> isspace c = true.
Proof. destruct c as [[] [] [] [] [] [] [] []]; intros H; first [reflexivity | discriminate H]. Qed.

Lemma splitlines_head (c : ascii) (r : string) :
  isspace c = false -> exists l ls, splitlines (String c r) = String c l :: ls.
Proof.
  intros Hc. cbn [splitlines].
  destruct (islinebreak c) eqn:E.
  - apply linebreak_isspace in E. congruence.
  - destruct (splitlines r) as [|l ls]; eauto.
Qed.

Lemma join_head (sep : string) (c : ascii) (l : string) (ls : list string) :
  join sep (String c l :: ls) <> "".
Proof. destruct ls; cbn [join]; discriminate. Qed.

Lemma append_empty (a b : string) : a ++ b = "" -> a = "" /\ b = "".
Proof. destruct a; [now split | discriminate]. Qed.

(** A child that printed nothing on standard output: what the pipe
    collected is what it printed on standard error. *)
Lemma merged_stderr (p : proc) :
  printed_on Stdout p = "" -> merged p = printed_on Stderr p.
Proof.
  unfold merged, printed_on. induction (output p) as [|[[] out] l IH];
    cbn [fold_right fst snd]; intros H.
  - reflexivity.
  - apply append_empty in H. destruct H as [-> H]. now apply IH.
  - now rewrite IH.
Qed.

(** C9 (what the code does): when the listing command fails, so that it
    lists nothing on standard output and only complains on standard error
    (the shell's "git: not found", or git's own "fatal: ..."), the capture
    mode of [run] has merged that complaint into the captured output, and
    the context collector returns it, stripped and cut to 220 lines, as the
    file list: the list is not empty. *)
Theorem git_failure_listed_as_files
    (cfg : Config) (env : Env) (h : list event) (p : proc) (text : string) :
  sh env h (Some (PROJECT_ROOT cfg)) "git ls-files || true" = Some p ->
  printed_on Stdout p = "" ->
  decode env (printed_on Stderr p) = Some text ->
  has_nonspace text = true ->
  exists tree,
    get_repo_tree cfg env h = (Ret tree, [EvRun "git ls-files || true" true])
    /\ tree = join (String nl "")
                   (firstn 220 (splitlines (strip (universal_newlines text))))
    /\ tree <> "".
Proof.
  intros Hsh Hout Hd Ht. rewrite <- (merged_stderr p Hout) in Hd.
  eexists. split; [|split; [reflexivity|]].
  - unfold get_repo_tree, ls_files_cmd. rewrite bind_unfold, run_unfold, Hsh.
    unfold captured_text. rewrite Hd. reflexivity.
  - rewrite <- (has_nonspace_universal_newlines _ text (le_n _)) in Ht.
    destruct (strip_nonspace_head _ Ht) as (c & r & -> & Hc).
    destruct (splitlines_head c r Hc) as (l & ls & ->).
    change 220 with (S 219). cbn [firstn]. apply join_head.
Qed.

Lemma git_failure_listed_as_files_witness :
  exists tree,
    get_repo_tree (default_cfg 3) env_no_git []
      = (Ret tree, [EvRun "git ls-files || true" true])
    /\ tree = join (String nl "")
                   (firstn 220
                      (splitlines
                         (strip (universal_newlines
                                   ("/bin/sh: 1: git: not found" ++ String nl "")))))
    /\ tree <> "".
Proof.
  apply (git_failure_listed_as_files (default_cfg 3) env_no_git []
           (err_proc 0 ("/bin/sh: 1: git: not found" ++ String nl ""))).
  - reflexivity.
  - reflexivity.
  - reflexivity.
  - reflexivity.
Defined.

(** The same on the sample environment without git: the file list of the
    prompt is the shell's complaint. *)
Example repo_tree_holds_error_text :
  sh env_no_git [] (Some "/work") ls_files_cmd
    = Some (err_proc 0 ("/bin/sh: 1: git: not found" ++ String nl ""))
  /\ fst (get_repo_tree (default_cfg 3) env_no_git [])
     = Ret "/bin/sh: 1: git: not found".
Proof. split; reflexivity. Qed.

(** * Further properties *)

(** ** How a run ends *)

Section Outcome.

Variable cfg : Config.
Variable env : Env.

Lemma run_build_inv (h : list event) r ev :
  run_build cfg env h = (r, ev) ->
  (exists p,
      sh env (h ++ [EvLogOpen])%list (Some (PROJECT_ROOT cfg)) (BUILD_CMD cfg) = Some p
      /\ r = Ret (returncode p)
      /\ ev = [EvLogOpen; EvBuild (BUILD_CMD cfg) (merged p)])
  \/ (sh env (h ++ [EvLogOpen])%list (Some (PROJECT_ROOT cfg)) (BUILD_CMD cfg) = None
      /\ r = Raise (OSError (BUILD_CMD cfg)) /\ ev = [EvLogOpen]).
Proof.
  unfold run_build. rewrite bind_unfold. cbn [emit fst snd].
  rewrite bind_unfold. cbn [history fst snd].
  destruct (sh env (h ++ [EvLogOpen])%list (Some (PROJECT_ROOT cfg)) (BUILD_CMD cfg))
    as [p|].
  - rewrite bind_unfold. cbn [emit ret fst snd app]. intros H.
    injection H as <- <-. left. now exists p.
  - cbn [raise fst snd app]. intros H. injection H as <- <-. now right.
Qed.

Lemma passing_end_app (h e1 e2 : list event) :
  passing_end cfg env (h ++ e1)%list e2 -> passing_end cfg env h (e1 ++ e2)%list.
Proof.
  intros (pre & p & msg & -> & Hsh & Hc).
  exists (e1 ++ pre)%list, p, msg. repeat split; [|  |exact Hc].
  - now rewrite <- app_assoc.
  - now rewrite <- !app_assoc in *.
Qed.

Lemma passing_end_build (h e_b : list event) (msg : string) :
  run_build cfg env h = (Ret 0%Z, e_b) ->
  passing_end cfg env h (e_b ++ [EvPrint msg])%list.
Proof.
  intros E. apply run_build_inv in E.
  destruct E as [(p & Hsh & Hr & ->) | (_ & Hr & _)]; [|discriminate Hr].
  injection Hr as Hr. exists [], p, msg. repeat split; [exact Hsh | now symmetry].
Qed.

(** Steps through [bind m f h = (Ret _, ev)]: [m] returned. *)
Ltac inv_ret E E1 :=
  apply bind_inv in E;
  let a := fresh "a" in
  let e1 := fresh "e" in
  let e2 := fresh "e" in
  let x := fresh "x" in
  let Hr := fresh "Hr" in
  destruct E as [(a & e1 & e2 & E1 & E & ->) | (x & _ & Hr)];
  [|discriminate Hr].

(** When the loop is left by [return], the code is 0 and the trace ends
    with the build that passed. *)
Lemma fix_loop_success (fuel : nat) :
  forall (attempts : Z) (h : list event) (c : Z) (ev : list event),
    fix_loop cfg env fuel attempts h = (Ret (Returned c), ev) ->
    c = 0%Z /\ passing_end cfg env h ev.
Proof.
  induction fuel as [|fuel IH]; intros a h c ev E; cbn [fix_loop] in E;
    destruct (a <? MAX_ATTEMPTS cfg)%Z; try discriminate E.
  do 5 (let E1 := fresh "E" in inv_ret E E1).
  destruct (negb (truthy _)).
  { let E1 := fresh "E" in inv_ret E E1. discriminate E. }
  do 4 (let E1 := fresh "E" in inv_ret E E1).
  destruct (negb _).
  { let E1 := fresh "E" in inv_ret E E1. discriminate E. }
  inv_ret E Eb.
  match type of Eb with run_build _ _ _ = (Ret ?code, _) =>
    destruct (code =? 0)%Z eqn:Ec end.
  - apply Z.eqb_eq in Ec. subst.
    inv_ret E Ep. unfold ret in E. injection E as <- <-.
    unfold print, emit in Ep. injection Ep as Ep. subst.
    split; [reflexivity|].
    do 9 apply passing_end_app. rewrite app_nil_r.
    now apply passing_end_build.
  - apply IH in E. destruct E as [-> E]. split; [reflexivity|].
    do 10 apply passing_end_app. exact E.
Qed.

(** The ways [main] returns a code. *)
Lemma main_inv (h : list event) (c : Z) (ev : list event) :
  main cfg env h = (Ret (Some c), ev) ->
  (c = 0%Z /\ passing_end cfg env h ev)
  \/ (c = 1%Z /\ exists pre, ev = (pre ++ failure_report)%list).
Proof.
  intros E. unfold main in E.
  inv_ret E E0. inv_ret E Eb.
  match type of Eb with run_build _ _ _ = (Ret ?code, _) =>
    destruct (code =? 0)%Z eqn:Ec end.
  - apply Z.eqb_eq in Ec. subst.
    inv_ret E Ep. unfold ret in E. injection E as <- <-.
    unfold print, emit in Ep. injection Ep as Ep. subst.
    left. split; [reflexivity|].
    apply passing_end_app. rewrite app_nil_r. now apply passing_end_build.
  - inv_ret E Ef.
    match type of Ef with fix_loop _ _ _ _ _ = (Ret ?r, _) => destruct r end.
    + inv_ret E Ep1. inv_ret E Ep2. unfold ret in E. injection E as <- <-.
      unfold print, emit in Ep1, Ep2. injection Ep1 as Ep1. injection Ep2 as Ep2.
      subst. right. split; [reflexivity|].
      match goal with
      | |- exists pre, (?x ++ ?y ++ ?z ++ _)%list = _ => exists (x ++ y ++ z)%list
      end.
      rewrite <- !app_assoc. reflexivity.
    + unfold ret in E. injection E as <- <-.
      apply fix_loop_success in Ef. destruct Ef as [-> Ef].
      left. split; [reflexivity|].
      do 2 apply passing_end_app. now rewrite app_nil_r.
    + discriminate E.
Qed.

(** X2: [main] returns 0 only when the last thing it did before the final
    message was a build that exited with code 0. *)
Theorem success_follows_passing_build (h : list event) :
  fst (main cfg env h) = Ret (Some 0%Z) ->
  passing_end cfg env h (snd (main cfg env h)).
Proof.
  destruct (main cfg env h) as [r ev] eqn:E. cbn [fst snd]. intros ->.
  destruct (main_inv _ _ _ E) as [[_ H] | [H _]]; [exact H | discriminate H].
Qed.

(** X3: whenever [main] returns 1, the last two lines it prints are the
    failure message and the hint to revert with .pre_ai_fix.patch. *)
Theorem failure_ends_with_report (h : list event) :
  fst (main cfg env h) = Ret (Some 1%Z) ->
  exists pre, snd (main cfg env h) = (pre ++ failure_report)%list.
Proof.
  destruct (main cfg env h) as [r ev] eqn:E. cbn [fst snd]. intros ->.
  destruct (main_inv _ _ _ E) as [[H _] | [_ H]]; [discriminate H | exact H].
Qed.

End Outcome.

Lemma success_follows_passing_build_witness :
  passing_end (default_cfg 3) env_green [] (snd (main (default_cfg 3) env_green [])).
Proof.
  apply (success_follows_passing_build (default_cfg 3) env_green []).
  reflexivity.
Defined.

Lemma failure_ends_with_report_witness :
  exists pre, snd (main (default_cfg 3) env_prose []) = (pre ++ failure_report)%list.
Proof.
  apply (failure_ends_with_report (default_cfg 3) env_prose []).
  reflexivity.
Defined.


(** ** Builds, patches and queries *)

Lemma weight_app (w : event -> Z) (a b : list event) :
  weight w (a ++ b) = (weight w a + weight w b)%Z.
Proof. induction a as [|x a IH]; cbn [app weight]; [reflexivity | lia]. Qed.

Lemma weight_silent (w : event -> Z) (tr : list event) :
  filter (weighs w) tr = [] -> weight w tr = 0%Z.
Proof.
  induction tr as [|x tr IH]; [reflexivity|]. cbn [filter weight].
  unfold weighs at 1. destruct (w x =? 0)%Z eqn:E; cbn [negb]; [|discriminate].
  intros H. apply Z.eqb_eq in E. rewrite E, IH by assumption. reflexivity.
Qed.

Lemma weight_build_minus_patch (tr : list event) :
  weight build_minus_patch tr = (Z.of_nat (builds tr) - Z.of_nat (patches tr))%Z.
Proof.
  unfold builds, patches.
  induction tr as [|x tr IH]; [reflexivity|].
  cbn [weight filter]. rewrite IH.
  destruct x; cbn [build_minus_patch is_build is_patch List.length]; lia.
Qed.

Lemma weight_patch_minus_query (tr : list event) :
  weight patch_minus_query tr = (Z.of_nat (patches tr) - Z.of_nat (queries tr))%Z.
Proof.
  unfold queries, patches.
  induction tr as [|x tr IH]; [reflexivity|].
  cbn [weight filter]. rewrite IH.
  destruct x; cbn [patch_minus_query is_query is_patch List.length]; lia.
Qed.

Lemma within_le (w : event -> Z) (c c' : Z) {A} (m : M A) :
  (c <= c')%Z -> within w c m -> within w c' m.
Proof. intros Hc Hm h. specialize (Hm h). lia. Qed.

Lemma within_silent (w : event -> Z) (c : Z) {A} (m : M A) :
  (0 <= c)%Z -> silent (weighs w) m -> within w c m.
Proof. intros Hc Hs h. rewrite (weight_silent _ _ (Hs h)). exact Hc. Qed.

Lemma within_bind (w : event -> Z) (c1 c2 : Z) {A B} (m : M A) (f : A -> M B) :
  (0 <= c2)%Z ->
  within w c1 m -> (forall a, within w c2 (f a)) -> within w (c1 + c2) (bind m f).
Proof.
  intros Hc Hm Hf h. rewrite bind_unfold. specialize (Hm h).
  destruct (m h) as [[a|e] e1]; cbn [snd] in *; [|lia].
  rewrite weight_app. specialize (Hf a (h ++ e1)%list). lia.
Qed.

(** After an event that always happens, the rest may weigh anything. *)
Lemma within_emit (w : event -> Z) (c : Z) (ev : event) {B} (k : M B) :
  within w c k -> within w (w ev + c) (bind (emit ev) (fun _ => k)).
Proof.
  intros Hk h. rewrite bind_unfold. cbn [emit fst snd weight app].
  specialize (Hk (h ++ [ev])%list). lia.
Qed.

Lemma within_history (w : event -> Z) (c : Z) {B} (k : list event -> M B) :
  (forall h0, within w c (k h0)) -> within w c (bind history k).
Proof.
  intros Hk h. rewrite bind_unfold. cbn [history fst snd app].
  exact (Hk h (h ++ [])%list).
Qed.

Ltac quiet_part :=
  first [ apply get_repo_tree_silent; reflexivity
        | apply get_recent_diff_silent; reflexivity
        | apply tail_build_log_silent
        | apply main_setup_silent; reflexivity
        | apply apply_patch_silent; reflexivity
        | silent_auto; fail
        | unfold run_build; silent_auto; fail
        | unfold call_llm, _call_openai, _call_llama; silent_auto; fail ].

(** A step that does not weigh, then the rest. *)
Ltac skip_quiet :=
  match goal with
  | |- within ?w ?c (bind _ _) =>
      apply (within_bind w 0 c);
      [lia | apply within_silent; [lia | quiet_part] | intros ?]
  end.

Section Counts.

Variable cfg : Config.
Variable env : Env.

(** The applier starts by writing the temporary file: one patch attempt,
    and nothing else that counts. *)
Lemma apply_patch_weight (w : event -> Z) (diff : string) :
  (forall c b, w (EvRun c b) = 0%Z) ->
  (forall l e, w (EvPrintExn l e) = 0%Z) ->
  (forall n, w (EvTmpUnlink n) = 0%Z) ->
  forall h, weight w (snd (apply_patch cfg env diff h))
            = w (EvTmpWrite (tmp_name env h) diff).
Proof.
  intros Hr He Hu h. unfold apply_patch.
  rewrite bind_unfold. cbn [history fst snd app].
  rewrite bind_unfold. cbn [emit fst snd app weight].
  match goal with |- (_ + weight w (snd (?m ?hh)))%Z = _ =>
    assert (S : silent (weighs w) m); [|rewrite (weight_silent _ _ (S hh)); lia]
  end.
  unfold git, weighs.
  repeat first [ apply run_silent; intros; rewrite Hr; reflexivity
               | apply silent_emit; first [rewrite He | rewrite Hu]; reflexivity
               | apply silent_ret
               | apply silent_bind; [|intros ?]
               | apply silent_try_except; [|intros ?]
               | apply silent_finally ].
Qed.

Lemma fix_loop_builds_patches (fuel : nat) :
  forall attempts : Z, within build_minus_patch 0 (fix_loop cfg env fuel attempts).
Proof.
  induction fuel as [|fuel IH]; intros a; cbn [fix_loop];
    destruct (a <? MAX_ATTEMPTS cfg)%Z;
    try (apply within_silent; [lia | silent_auto]; fail).
  do 5 skip_quiet.
  destruct (negb (truthy _)); [apply within_silent; [lia | silent_auto]|].
  do 3 skip_quiet.
  apply (within_bind build_minus_patch (-1) 1); [lia| |intros applied].
  { intros h. rewrite apply_patch_weight by reflexivity. cbn. lia. }
  destruct (negb applied); [apply within_silent; [lia | silent_auto]|].
  apply (within_bind build_minus_patch 1 0); [lia| |intros code].
  { intros h. destruct (run_build cfg env h) as [r ev] eqn:E.
    apply run_build_inv in E.
    destruct E as [(p & _ & _ & ->) | (_ & _ & ->)]; cbn; lia. }
  destruct (code =? 0)%Z; [apply within_silent; [lia | silent_auto]|].
  apply IH.
Qed.

Lemma fix_loop_patches_queries (fuel : nat) :
  forall attempts : Z, within patch_minus_query 0 (fix_loop cfg env fuel attempts).
Proof.
  induction fuel as [|fuel IH]; intros a; cbn [fix_loop];
    destruct (a <? MAX_ATTEMPTS cfg)%Z;
    try (apply within_silent; [lia | silent_auto]; fail).
  do 4 skip_quiet.
  apply (within_bind patch_minus_query (-1) 1); [lia| |intros llm_out].
  { unfold call_llm.
    apply (within_emit patch_minus_query 0 (EvCallLLM _)).
    apply within_silent; [lia|].
    unfold _call_openai, _call_llama. silent_auto. }
  destruct (negb (truthy _)); [apply within_silent; [lia | silent_auto]|].
  do 3 skip_quiet.
  apply (within_bind patch_minus_query 1 0); [lia| |intros applied].
  { intros h. rewrite apply_patch_weight by reflexivity. cbn. lia. }
  destruct (negb applied); [apply within_silent; [lia | silent_auto]|].
  skip_quiet.
  destruct (_ =? 0)%Z; [apply within_silent; [lia | silent_auto]|].
  apply IH.
Qed.

(** X4: in every run, each rebuild follows a patch-apply attempt of its own
    and each patch-apply attempt follows a model query of its own: the
    builds are at most one more than the patch attempts, and the patch
    attempts at most as many as the queries. *)
Theorem rebuilds_follow_patches (h : list event) :
  builds (snd (main cfg env h)) <= 1 + patches (snd (main cfg env h))
  /\ patches (snd (main cfg env h)) <= queries (snd (main cfg env h)).
Proof.
  assert (B : within build_minus_patch 1 (main cfg env)).
  { unfold main. skip_quiet.
    apply (within_bind build_minus_patch 1 0); [lia| |intros code].
    { intros h'. destruct (run_build cfg env h') as [r ev] eqn:E.
      apply run_build_inv in E.
      destruct E as [(p & _ & _ & ->) | (_ & _ & ->)]; cbn; lia. }
    destruct (code =? 0)%Z; [apply within_silent; [lia | silent_auto]|].
    apply (within_bind build_minus_patch 0 0);
      [lia | apply fix_loop_builds_patches | intros r].
    apply within_silent; [lia|]. destruct r; silent_auto. }
  assert (P : within patch_minus_query 0 (main cfg env)).
  { unfold main. do 2 skip_quiet.
    destruct (_ =? 0)%Z; [apply within_silent; [lia | silent_auto]|].
    apply (within_bind patch_minus_query 0 0);
      [lia | apply fix_loop_patches_queries | intros r].
    apply within_silent; [lia|]. destruct r; silent_auto. }
  specialize (B h). specialize (P h).
  rewrite weight_build_minus_patch in B. rewrite weight_patch_minus_query in P.
  lia.
Qed.

End Counts.

(** ** Runs in which the model always sends a diff *)

Section Scenario.

Variable cfg : Config.
Variable env : Env.

(** Every child process can be started. *)
Hypothesis shell_starts : forall h cwd cmd, sh env h cwd cmd <> None.

(** What the children print is text in the locale's encoding. *)
Hypothesis prints_text :
  forall h cwd cmd p, sh env h cwd cmd = Some p -> decode env (merged p) <> None.

(** The model client always answers, and with a diff. *)
Hypothesis answers :
  forall prompt h,
    exists text,
      fst (call_llm cfg env prompt h) = Ret text
      /\ truthy (extract_unified_diff text) = true.





Section AlwaysFailing.

(** Every build fails. *)
Hypothesis build_fails :
  forall h p,
    sh env h (Some (PROJECT_ROOT cfg)) (BUILD_CMD cfg) = Some p ->
    returncode p <> 0%Z.



End AlwaysFailing.

Section FixedAfter.

(** The builds fail until [n] of them have run; the next one passes. *)
Variable n : nat.

Hypothesis fails_before :
  forall h p,
    builds h < n ->
    sh env h (Some (PROJECT_ROOT cfg)) (BUILD_CMD cfg) = Some p ->
    returncode p <> 0%Z.

Hypothesis passes_then :
  forall h p,
    builds h = n ->
    sh env h (Some (PROJECT_ROOT cfg)) (BUILD_CMD cfg) = Some p ->
    returncode p = 0%Z.



End FixedAfter.

End Scenario.






(** ** What the prompts hold *)

Lemma contains_app_r (w a b : string) :
  contains w b = true -> contains w (a ++ b) = true.
Proof.
  intros H. induction a as [|c a IH]; [exact H|].
  change (String c a ++ b) with (String c (a ++ b)).
  cbn [contains]. rewrite IH. apply orb_true_r.
Qed.

Lemma PROMPT_format_build_cmd (tree recent cmd tail : string) :
  contains cmd (PROMPT_format tree recent cmd tail) = true.
Proof.
  unfold PROMPT_format. do 5 apply contains_app_r. apply contains_prefix.
Qed.

Lemma filter_nil_Forall {A} (P : A -> bool) (l : list A) :
  filter P l = [] -> Forall (fun x => P x = false) l.
Proof.
  induction l as [|x l IH]; [constructor|]. cbn [filter].
  destruct (P x) eqn:E; [discriminate|]. intros H. constructor; auto.
Qed.

Section Prompts.

Variable cfg : Config.
Variable env : Env.

Lemma call_llm_prompt (tree recent tail : string) :
  silent (prompt_lacks_build cfg)
    (call_llm cfg env (PROMPT_format tree recent (BUILD_CMD cfg) tail)).
Proof.
  unfold call_llm. apply silent_bind.
  - apply silent_emit. cbn [prompt_lacks_build].
    now rewrite PROMPT_format_build_cmd.
  - intros _. unfold _call_openai, _call_llama. silent_auto.
Qed.

Lemma fix_loop_prompts (fuel : nat) :
  forall attempts : Z, silent (prompt_lacks_build cfg) (fix_loop cfg env fuel attempts).
Proof.
  induction fuel as [|fuel IH]; intros a; cbn [fix_loop];
    destruct (a <? MAX_ATTEMPTS cfg)%Z; try (silent_auto; fail).
  do 4 (apply silent_bind; [quiet_part|intros ?]).
  apply silent_bind; [apply call_llm_prompt|intros llm_out].
  destruct (negb (truthy _)); [silent_auto|].
  do 4 (apply silent_bind; [quiet_part|intros ?]).
  destruct (negb _); [silent_auto|].
  apply silent_bind; [quiet_part|intros code].
  destruct (code =? 0)%Z; [silent_auto | apply IH].
Qed.

(** X7: every prompt a run sends to the model client holds the build
    command. *)
Theorem prompts_hold_build_command (h : list event) :
  Forall (fun ev => prompt_lacks_build cfg ev = false) (snd (main cfg env h)).
Proof.
  apply filter_nil_Forall. revert h.
  change (silent (prompt_lacks_build cfg) (main cfg env)).
  unfold main.
  do 2 (apply silent_bind; [quiet_part|intros ?]).
  destruct (_ =? 0)%Z; [silent_auto|].
  apply silent_bind; [apply fix_loop_prompts|intros r].
  destruct r; silent_auto.
Qed.

End Prompts.

(** ** After a failure of the patch applier *)

Lemma filter_nil_app {A} (P : A -> bool) (a b : list A) :
  filter P (a ++ b) = [] -> filter P a = [] /\ filter P b = [].
Proof. rewrite filter_app. apply app_eq_nil. Qed.

Lemma filter_nil_not_in {A} (P : A -> bool) (pre post : list A) (x : A) :
  P x = true -> filter P (pre ++ x :: post) <> [].
Proof.
  intros Hx H. apply filter_nil_app in H. destruct H as [_ H].
  cbn [filter] in H. rewrite Hx in H. discriminate.
Qed.

Lemma stops_clean (ev : list event) :
  filter is_failure_note ev = [] -> stops_after_failure ev.
Proof.
  intros H pre x post -> Hx. now destruct (filter_nil_not_in _ _ _ _ Hx H).
Qed.

Lemma stops_quiet (ev : list event) :
  queries ev = 0 -> builds ev = 0 -> stops_after_failure ev.
Proof.
  intros Q B pre x post -> _.
  rewrite queries_app in Q. rewrite builds_app in B.
  change (x :: post) with ([x] ++ post)%list in Q, B.
  rewrite queries_app in Q. rewrite builds_app in B. lia.
Qed.

Lemma stops_app_clean (a b : list event) :
  filter is_failure_note a = [] ->
  stops_after_failure b -> stops_after_failure (a ++ b).
Proof.
  intros Ha Hb pre x post E Hx.
  apply app_eq_app in E. destruct E as [l [[-> E] | [-> E]]].
  - destruct l as [|y l].
    + rewrite app_nil_l in E. apply (Hb [] x post); [now rewrite <- E | exact Hx].
    + injection E as <- _. now destruct (filter_nil_not_in _ _ _ _ Hx Ha).
  - now apply (Hb l x post).
Qed.

Lemma stops_app_quiet (a b : list event) :
  stops_after_failure a ->
  queries b = 0 -> builds b = 0 -> filter is_failure_note b = [] ->
  stops_after_failure (a ++ b).
Proof.
  intros Ha Q B Hb pre x post E Hx.
  apply app_eq_app in E. destruct E as [l [[-> E] | [-> E]]].
  - destruct l as [|y l].
    + rewrite app_nil_l in E. rewrite <- E in Hb. cbn [filter] in Hb.
      rewrite Hx in Hb. discriminate.
    + injection E as <- ->. destruct (Ha pre x l eq_refl Hx) as [Q' B'].
      rewrite queries_app, builds_app. lia.
  - rewrite E in Hb. now destruct (filter_nil_not_in _ _ _ _ Hx Hb).
Qed.

Lemma careful_silent {A} (m : M A) : silent is_failure_note m -> careful m.
Proof. intros H h. apply stops_clean, H. Qed.

Lemma careful_bind_clean {A B} (m : M A) (f : A -> M B) :
  silent is_failure_note m -> (forall a, careful (f a)) -> careful (bind m f).
Proof.
  intros Hm Hf h. rewrite bind_unfold. specialize (Hm h).
  destruct (m h) as [[a|e] e1]; cbn [snd] in *.
  - apply stops_app_clean; [exact Hm | apply Hf].
  - now apply stops_clean.
Qed.

Lemma careful_then_quiet {A B} (m : M A) (f : A -> M B) :
  careful m ->
  (forall a, silent is_query (f a)) -> (forall a, silent is_build (f a)) ->
  (forall a, silent is_failure_note (f a)) ->
  careful (bind m f).
Proof.
  intros Hm Hq Hb Hn h. rewrite bind_unfold. specialize (Hm h).
  destruct (m h) as [[a|e] e1]; cbn [snd] in *; [|exact Hm].
  apply stops_app_quiet; [exact Hm| | |apply Hn].
  - apply (silent_queries (f a)), Hq.
  - apply (silent_builds (f a)), Hb.
Qed.

Section AfterFailure.

Variable cfg : Config.
Variable env : Env.

(** A patch reported as applied left no failure note. *)
Lemma apply_patch_true_clean (diff : string) (h ev : list event) :
  apply_patch cfg env diff h = (Ret true, ev) ->
  filter is_failure_note ev = [].
Proof.
  intros E. unfold apply_patch, git in E.
  apply bind_inv in E.
  destruct E as [(h0 & e1 & e2 & E1 & E & ->) | (e & E1 & _)]; [|discriminate E1].
  injection E1 as <- <-.
  apply bind_inv in E.
  destruct E as [(u & e1 & e3 & E1 & E & ->) | (e & E1 & _)]; [|discriminate E1].
  injection E1 as <-.
  apply finally_emit_inv in E. destruct E as (e4 & E & ->).
  apply try_except_inv in E.
  destruct E as [(a & E & Ha) | (e & e5 & e6 & E & Eh & ->)].
  - repeat (apply bind_inv in E;
            let R := fresh "R" in
            destruct E as [(? & ? & ? & R & E & ->) | (? & _ & Hr)];
            [apply run_inv_ret in R; destruct R as [-> _] | discriminate Hr]).
    unfold ret in E. injection E as _ <-. subst e1. reflexivity.
  - cbn in Eh. injection Eh as Eh _. discriminate Eh.
Qed.

Lemma careful_apply_patch {B} (diff : string) (f : bool -> M B) :
  careful (f true) ->
  silent is_query (f false) -> silent is_build (f false) ->
  silent is_failure_note (f false) ->
  careful (bind (apply_patch cfg env diff) f).
Proof.
  intros Ht Hq Hb Hn h. rewrite bind_unfold.
  pose proof (silent_queries _ h (apply_patch_silent cfg env is_query diff
                (fun _ _ => eq_refl) (fun _ _ => eq_refl) (fun _ _ => eq_refl)
                (fun _ => eq_refl))) as Q.
  pose proof (silent_builds _ h (apply_patch_silent cfg env is_build diff
                (fun _ _ => eq_refl) (fun _ _ => eq_refl) (fun _ _ => eq_refl)
                (fun _ => eq_refl))) as Bu.
  destruct (apply_patch cfg env diff h) as [[[|]|e] ev] eqn:E; cbn [fst snd] in *.
  - apply stops_app_clean; [exact (apply_patch_true_clean _ _ _ E) | apply Ht].
  - apply stops_app_quiet; [now apply stops_quiet| | |apply Hn].
    + apply (silent_queries (f false)), Hq.
    + apply (silent_builds (f false)), Hb.
  - now apply stops_quiet.
Qed.

Lemma fix_loop_careful (fuel : nat) :
  forall attempts : Z, careful (fix_loop cfg env fuel attempts).
Proof.
  induction fuel as [|fuel IH]; intros a; cbn [fix_loop];
    destruct (a <? MAX_ATTEMPTS cfg)%Z;
    try (apply careful_silent; silent_auto; fail).
  do 5 (apply careful_bind_clean; [quiet_part|intros ?]).
  destruct (negb (truthy _)); [apply careful_silent; silent_auto|].
  do 3 (apply careful_bind_clean; [quiet_part|intros ?]).
  apply careful_apply_patch; cbn [negb]; try (silent_auto; fail).
  apply careful_bind_clean; [quiet_part|intros code].
  destruct (code =? 0)%Z; [apply careful_silent; silent_auto | apply IH].
Qed.

(** X8: in every run, once the patch applier has printed its failure note,
    the controller makes no further model query and runs no further build. *)
Theorem no_work_after_apply_failure (h : list event) :
  stops_after_failure (snd (main cfg env h)).
Proof.
  revert h. change (careful (main cfg env)). unfold main.
  do 2 (apply careful_bind_clean; [quiet_part|intros ?]).
  destruct (_ =? 0)%Z; [apply careful_silent; silent_auto|].
  apply careful_then_quiet; [apply fix_loop_careful| | |];
    intros r; destruct r; silent_auto.
Qed.

End AfterFailure.

Lemma no_work_after_apply_failure_witness :
  queries (skipn 18 (snd (main (default_cfg 3) env_unstartable []))) = 0
  /\ builds (skipn 18 (snd (main (default_cfg 3) env_unstartable []))) = 0.
Proof.
  apply (no_work_after_apply_failure (default_cfg 3) env_unstartable []
           (firstn 17 (snd (main (default_cfg 3) env_unstartable [])))
           (EvPrintExn "Patch apply failed:"
              (OSError "git apply --reject --whitespace=fix /tmp/tmpk3v9.patch"))
           (skipn 18 (snd (main (default_cfg 3) env_unstartable []))));
    reflexivity.
Defined.

(** ** More on the model client *)

Section Backends.

Variable cfg : Config.
Variable env : Env.

Lemma _call_openai_returns (prompt : string) (h : list event) text ev :
  _call_openai cfg env prompt h = (Ret text, ev) ->
  exists key r,
    environ env "OPENAI_API_KEY" = Some key
    /\ post env h (openai_request cfg env key prompt) = Some r
    /\ (status_code r < 400)%Z
    /\ content r = Some text
    /\ ev = [EvPost (openai_request cfg env key prompt)].
Proof.
  unfold _call_openai.
  destruct (environ env "OPENAI_API_KEY") as [key|]; [|discriminate].
  rewrite bind_unfold. cbn [history fst snd].
  rewrite bind_unfold. cbn [emit fst snd app].
  destruct (post env h (openai_request cfg env key prompt)) as [r|] eqn:Ep;
    [|discriminate].
  destruct (400 <=? status_code r)%Z eqn:Es; [discriminate|].
  destruct (content r) as [c|] eqn:Ec; [|discriminate].
  intros H. injection H as <- <-. apply Z.leb_gt in Es.
  now exists key, r.
Qed.

Lemma _call_llama_inv (prompt : string) (h : list event) r ev :
  _call_llama cfg env prompt h = (r, ev) ->
  filter is_post ev = []
  /\ llama_calls ev = [EvLlama (llama_cmd cfg prompt)]
  /\ forall text,
       r = Ret text ->
       ev = [EvLlama (llama_cmd cfg prompt)]
       /\ exists p,
            sh env h None (llama_cmd cfg prompt) = Some p
            /\ returncode p = 0%Z /\ captured_text env p = Some text.
Proof.
  unfold _call_llama. rewrite bind_unfold. cbn [history fst snd].
  rewrite bind_unfold. cbn [emit fst snd app].
  destruct (sh env h None (llama_cmd cfg prompt)) as [p|].
  - destruct (captured_text env p) as [t|] eqn:Et.
    + destruct (returncode p =? 0)%Z eqn:Ec; cbn [negb].
      * intros H. injection H as <- <-.
        split; [reflexivity|]. split; [reflexivity|].
        intros text Ht. injection Ht as <-. apply Z.eqb_eq in Ec.
        split; [reflexivity|]. now exists p.
      * intros H. injection H as <- <-.
        split; [reflexivity|]. split; [reflexivity|]. discriminate.
    + intros H. injection H as <- <-.
      split; [reflexivity|]. split; [reflexivity|]. discriminate.
  - intros H. injection H as <- <-.
    split; [reflexivity|]. split; [reflexivity|]. discriminate.
Qed.

Lemma _call_openai_inv (prompt : string) (h : list event) r ev :
  _call_openai cfg env prompt h = (r, ev) ->
  List.length (filter is_post ev) <= 1 /\ llama_calls ev = [].
Proof.
  unfold _call_openai.
  destruct (environ env "OPENAI_API_KEY") as [key|].
  - rewrite bind_unfold. cbn [history fst snd].
    rewrite bind_unfold. cbn [emit fst snd app].
    destruct (post env h (openai_request cfg env key prompt)) as [rs|].
    + destruct (400 <=? status_code rs)%Z; [|destruct (content rs)];
        intros H; injection H as <- <-; split; cbn; auto.
    + intros H; injection H as <- <-; split; cbn; auto.
  - intros H; injection H as <- <-; split; cbn; auto.
Qed.

(** X9: one call of the model client sends at most one HTTP request and
    starts the local model at most once: no backend is ever retried. *)
Theorem backends_called_at_most_once (prompt : string) (h : list event) :
  List.length (posts (snd (call_llm cfg env prompt h))) <= 1
  /\ List.length (llama_calls (snd (call_llm cfg env prompt h))) <= 1.
Proof.
  unfold call_llm, posts, llama_calls. rewrite bind_unfold. cbn [emit fst snd].
  rewrite !filter_app. cbn [filter is_post is_llama app].
  set (h1 := (h ++ [EvCallLLM prompt])%list).
  destruct (String.eqb (PROVIDER cfg) "openai").
  - rewrite try_except_unfold.
    destruct (_call_openai cfg env prompt h1) as [[text|e] e1] eqn:E1;
      destruct (_call_openai_inv _ _ _ _ E1) as [P1 L1]; cbn [snd].
    + unfold llama_calls in L1. rewrite L1. cbn. lia.
    + unfold llama_calls in L1.
      assert (Hr : forall hh, @raise string e hh = (Raise e, [])) by reflexivity.
      destruct e; cbn [fst snd];
        rewrite ?filter_app, ?L1, ?app_nil_r; cbn [List.length app];
        try lia.
      destruct (contains "openai_error" msg && String.eqb (FALLBACK_PROVIDER cfg) "llama").
      * rewrite bind_unfold, print_eq. cbn [fst snd].
        match goal with |- context [_call_llama cfg env prompt ?hh] =>
          destruct (_call_llama cfg env prompt hh) as [r2 e2] eqn:E2;
          destruct (_call_llama_inv _ _ _ _ E2) as (P2 & L2 & _)
        end.
        unfold llama_calls in L2. cbn [snd].
        rewrite ?filter_app, ?L1. cbn [filter is_post is_llama app].
        rewrite ?L2, ?P2, ?app_nil_r. cbn [List.length]. lia.
      * cbn [raise snd]. rewrite ?filter_app, ?L1, ?app_nil_r. cbn. lia.
  - destruct (String.eqb (PROVIDER cfg) "llama").
    + destruct (_call_llama cfg env prompt h1) as [r2 e2] eqn:E2.
      destruct (_call_llama_inv _ _ _ _ E2) as (P2 & L2 & _).
      unfold llama_calls in L2. cbn [snd]. rewrite P2, L2. cbn. lia.
    + cbn. lia.
Qed.

(** X10: unless PROVIDER is "openai" no HTTP request is sent; and when it
    is neither "openai" nor "llama" the call fails at once with
    RuntimeError("Unknown PROVIDER=...") without reaching any backend. *)
Theorem no_request_unless_openai (prompt : string) (h : list event) :
  PROVIDER cfg <> "openai" ->
  posts (snd (call_llm cfg env prompt h)) = []
  /\ (PROVIDER cfg <> "llama" ->
      call_llm cfg env prompt h
      = (Raise (RuntimeError ("Unknown PROVIDER=" ++ PROVIDER cfg)),
         [EvCallLLM prompt])).
Proof.
  intros Hp. apply String.eqb_neq in Hp.
  unfold call_llm, posts. rewrite bind_unfold. cbn [emit fst snd]. rewrite Hp.
  destruct (String.eqb (PROVIDER cfg) "llama") eqn:El.
  - split.
    + destruct (_call_llama cfg env prompt (h ++ [EvCallLLM prompt])%list)
        as [r2 e2] eqn:E2.
      destruct (_call_llama_inv _ _ _ _ E2) as (P2 & _ & _).
      cbn [snd app filter is_post]. exact P2.
    + intros Hl. apply String.eqb_neq in Hl. congruence.
  - split; [reflexivity|]. intros _. reflexivity.
Qed.

(** X11: when the primary backend answers with a status of 400 or more and
    FALLBACK_PROVIDER is not "llama", the provider error is raised and the
    local model is not started. *)
Theorem provider_error_without_fallback
    (prompt key : string) (h : list event) r :
  PROVIDER cfg = "openai" ->
  FALLBACK_PROVIDER cfg <> "llama" ->
  environ env "OPENAI_API_KEY" = Some key ->
  post env (h ++ [EvCallLLM prompt])%list (openai_request cfg env key prompt)
    = Some r ->
  (400 <= status_code r)%Z ->
  fst (call_llm cfg env prompt h)
    = Raise (RuntimeError ("openai_error:" ++ err_dump r))
  /\ llama_calls (snd (call_llm cfg env prompt h)) = [].
Proof.
  intros Hp Hf Hkey Hpost Hst. apply String.eqb_neq in Hf.
  unfold call_llm. rewrite bind_unfold. cbn [emit fst snd].
  rewrite Hp, String.eqb_refl, try_except_unfold.
  rewrite (_call_openai_provider_error _ _ _ _ _ _ Hkey Hpost Hst).
  rewrite Hf, andb_false_r. cbn [raise fst snd]. split; reflexivity.
Qed.

(** X12: a text returned by the model client comes from a backend that
    reported success in this very call: either the response to the request
    this call sent had a status below 400 and the text is its content, or
    the local model, started by this call on this prompt, exited with 0 and
    the text is what it printed, decoded and with newlines translated. *)
Theorem answers_come_from_success (prompt : string) (h : list event) text ev :
  call_llm cfg env prompt h = (Ret text, ev) ->
  (exists key r,
      environ env "OPENAI_API_KEY" = Some key
      /\ ev = [EvCallLLM prompt; EvPost (openai_request cfg env key prompt)]
      /\ post env (h ++ [EvCallLLM prompt])%list (openai_request cfg env key prompt)
         = Some r
      /\ (status_code r < 400)%Z
      /\ content r = Some text)
  \/ (exists pre p,
        ev = (pre ++ [EvLlama (llama_cmd cfg prompt)])%list
        /\ sh env (h ++ pre)%list None (llama_cmd cfg prompt) = Some p
        /\ returncode p = 0%Z
        /\ captured_text env p = Some text).
Proof.
  unfold call_llm. intros E.
  apply bind_inv in E.
  destruct E as [(u & e1 & e2 & E1 & E & ->) | (e & _ & Hr)]; [|discriminate Hr].
  injection E1 as _ He1. subst e1.
  destruct (String.eqb (PROVIDER cfg) "openai").
  - apply try_except_inv in E.
    destruct E as [(a & E & Ha) | (e & e3 & e4 & E & Eh & ->)].
    + injection Ha as <-. apply _call_openai_returns in E.
      destruct E as (key & r & Hkey & Hpost & Hst & Hc & ->).
      left. exists key, r. auto.
    + destruct e; try discriminate Eh.
      destruct (contains "openai_error" msg && String.eqb (FALLBACK_PROVIDER cfg) "llama");
        [|discriminate Eh].
      apply bind_inv in Eh.
      destruct Eh as [(u' & e5 & e6 & _ & Eh & ->) | (e' & _ & Hr)];
        [|discriminate Hr].
      destruct (_call_llama_inv _ _ _ _ Eh) as (_ & _ & Hl).
      destruct (Hl text eq_refl) as (-> & p & Hp & Hc & Hm).
      right. exists ([EvCallLLM prompt] ++ e3 ++ e5)%list, p.
      rewrite <- !app_assoc in *. auto.
  - destruct (String.eqb (PROVIDER cfg) "llama"); [|discriminate E].
    destruct (_call_llama_inv _ _ _ _ E) as (_ & _ & Hl).
    destruct (Hl text eq_refl) as (-> & p & Hp & Hc & Hm).
    right. exists [EvCallLLM prompt], p. auto.
Qed.

End Backends.

Lemma no_request_unless_openai_witness :
  posts (snd (call_llm cfg_unknown_provider env_green "fix the build" [])) = []
  /\ call_llm cfg_unknown_provider env_green "fix the build" []
     = (Raise (RuntimeError "Unknown PROVIDER=claude"), [EvCallLLM "fix the build"]).
Proof.
  assert (H : PROVIDER cfg_unknown_provider <> "openai") by discriminate.
  destruct (no_request_unless_openai cfg_unknown_provider env_green
              "fix the build" [] H) as [H1 H2].
  split; [exact H1 | apply H2; discriminate].
Defined.

Lemma provider_error_without_fallback_witness :
  fst (call_llm cfg_no_fallback env_limited "fix the build" [])
    = Raise (RuntimeError
               ("openai_error:" ++ "{" ++ dq ++ "error" ++ dq ++ ": " ++ dq
                  ++ "rate_limit_exceeded" ++ dq ++ "}"))
  /\ llama_calls (snd (call_llm cfg_no_fallback env_limited "fix the build" [])) = [].
Proof.
  apply (provider_error_without_fallback cfg_no_fallback env_limited
           "fix the build" "sk-test" []
           {| status_code := 429;
              err_dump := "{" ++ dq ++ "error" ++ dq ++ ": " ++ dq
                            ++ "rate_limit_exceeded" ++ dq ++ "}";
              err_dump_indent := "{" ++ dq ++ "error" ++ dq ++ ": " ++ dq
                            ++ "rate_limit_exceeded" ++ dq ++ "}";
              content := None |});
    first [reflexivity | discriminate | cbn; lia].
Defined.

Lemma answers_come_from_success_witness :
  (exists key r,
      environ env_prose "OPENAI_API_KEY" = Some key
      /\ [EvCallLLM "fix the build";
          EvPost (openai_request (default_cfg 3) env_prose "sk-test" "fix the build")]
         = [EvCallLLM "fix the build";
            EvPost (openai_request (default_cfg 3) env_prose key "fix the build")]
      /\ post env_prose ([] ++ [EvCallLLM "fix the build"])%list
           (openai_request (default_cfg 3) env_prose key "fix the build") = Some r
      /\ (status_code r < 400)%Z
      /\ content r = Some "I cannot fix this.")
  \/ (exists pre p,
        [EvCallLLM "fix the build";
         EvPost (openai_request (default_cfg 3) env_prose "sk-test" "fix the build")]
        = (pre ++ [EvLlama (llama_cmd (default_cfg 3) "fix the build")])%list
        /\ sh env_prose ([] ++ pre)%list None
             (llama_cmd (default_cfg 3) "fix the build") = Some p
        /\ returncode p = 0%Z
        /\ captured_text env_prose p = Some "I cannot fix this.").
Proof.
  apply (answers_come_from_success (default_cfg 3) env_prose "fix the build" []
           "I cannot fix this."
           [EvCallLLM "fix the build";
            EvPost (openai_request (default_cfg 3) env_prose "sk-test" "fix the build")]).
  reflexivity.
Defined.

(** ** The context is bounded *)

Lemma count_char_app (c : ascii) (a b : string) :
  count_char c (a ++ b) = count_char c a + count_char c b.
Proof.
  induction a as [|d a IH]; [reflexivity|].
  change (String d a ++ b) with (String d (a ++ b)).
  cbn [count_char]. rewrite IH. lia.
Qed.

Lemma count_nl_join (ls : list string) :
  Forall (fun l => count_char nl l = 0) ls ->
  count_char nl (join (String nl "") ls) = List.length ls - 1.
Proof.
  induction ls as [|l ls IH]; intros H; [reflexivity|].
  inversion H as [|? ? Hl Hls]; subst.
  destruct ls as [|l' ls'].
  - cbn [join List.length]. rewrite Hl. reflexivity.
  - change (join (String nl "") (l :: l' :: ls'))
      with (l ++ String nl "" ++ join (String nl "") (l' :: ls')).
    rewrite !count_char_app, Hl, (IH Hls). cbn. lia.
Qed.

(** No line of [splitlines] holds a newline. *)
Lemma splitlines_no_nl (n : nat) :
  forall s, String.length s <= n ->
            Forall (fun l => count_char nl l = 0) (splitlines s).
Proof.
  induction n as [|n IH]; intros s Hn.
  - destruct s; [constructor | cbn in Hn; lia].
  - destruct s as [|c s]; [constructor|]. cbn [String.length] in Hn.
    cbn [splitlines]. destruct (islinebreak c) eqn:Eb.
    + destruct s as [|d s'].
      * repeat constructor.
      * cbn [String.length] in Hn.
        destruct (Ascii.eqb c cr && Ascii.eqb d nl);
          (constructor; [reflexivity | apply IH; cbn [String.length]; lia]).
    + assert (Hc : Ascii.eqb nl c = false).
      { destruct (Ascii.eqb nl c) eqn:E; [|reflexivity].
        apply Ascii.eqb_eq in E. subst c. discriminate Eb. }
      specialize (IH s ltac:(lia)).
      destruct (splitlines s) as [|l ls].
      * constructor; [|constructor]. cbn [count_char]. now rewrite Hc.
      * inversion IH as [|? ? Hl Hls]; subst.
        constructor; [|exact Hls]. cbn [count_char]. now rewrite Hc, Hl.
Qed.

Lemma Forall_firstn_ {A} (P : A -> Prop) (k : nat) (l : list A) :
  Forall P l -> Forall P (firstn k l).
Proof.
  revert k. induction l as [|x l IH]; intros k H; destruct k; cbn;
    try constructor; inversion H; subst; auto.
Qed.

Lemma Forall_skipn_ {A} (P : A -> Prop) (k : nat) (l : list A) :
  Forall P l -> Forall P (skipn k l).
Proof.
  revert k. induction l as [|x l IH]; intros k H; destruct k; cbn;
    try constructor; inversion H; subst; auto.
Qed.

Lemma length_drop (k : nat) (s : string) :
  String.length (drop k s) = String.length s - k.
Proof.
  revert s. induction k as [|k IH]; intros s; cbn [drop]; [lia|].
  destruct s; cbn [String.length]; [reflexivity | apply IH].
Qed.

Section Context.

Variable cfg : Config.
Variable env : Env.

(** X13: the file list handed to the prompt never has more than 220
    lines. *)
Theorem repo_tree_at_most_220_lines (h : list event) (tree : string) :
  fst (get_repo_tree cfg env h) = Ret tree ->
  count_char nl tree < 220.
Proof.
  unfold get_repo_tree. remember 220 as k eqn:Ek.
  assert (Hk : 0 < k) by (rewrite Ek; apply Nat.lt_0_succ). clear Ek.
  rewrite bind_unfold, run_unfold.
  destruct (sh env h (Some (PROJECT_ROOT cfg)) ls_files_cmd) as [p|];
    [|discriminate].
  destruct (captured_text env p) as [t|]; cbn [fst snd ret]; [|discriminate].
  intros H. injection H as <-.
  rewrite count_nl_join.
  - match goal with |- List.length (firstn k ?l) - 1 < k =>
      pose proof (firstn_le_length k l) end.
    lia.
  - apply Forall_firstn_. eapply splitlines_no_nl. apply le_n.
Qed.

(** X14: the recent-changes text handed to the prompt never has more than
    8000 characters. *)
Theorem recent_diff_at_most_8000_chars (h : list event) (recent : string) :
  fst (get_recent_diff cfg env h) = Ret recent ->
  (Z.of_nat (String.length recent) <= 8000)%Z.
Proof.
  unfold get_recent_diff. rewrite bind_unfold, run_unfold.
  destruct (sh env h (Some (PROJECT_ROOT cfg)) "git log --oneline -n 1 || true")
    as [p|]; [|discriminate].
  destruct (captured_text env p) as [t|]; cbn [fst snd]; [|discriminate].
  destruct (String.eqb _ _).
  - cbn [ret fst]. intros H. injection H as <-. cbn. lia.
  - rewrite bind_unfold, run_unfold.
    destruct (sh env _ (Some (PROJECT_ROOT cfg))
                "git diff --unified=2 -M -C HEAD~5..HEAD || true") as [q|];
      [|discriminate].
    destruct (captured_text env q) as [t'|]; cbn [fst snd ret]; [|discriminate].
    intros H. injection H as <-. unfold last_chars. rewrite length_drop. lia.
Qed.

(** X15: the log tail handed to the prompt never has more than 400
    lines. *)
Theorem log_tail_at_most_400_lines (h : list event) (tail : string) :
  fst (tail_build_log env h) = Ret tail ->
  count_char nl tail < 400.
Proof.
  unfold tail_build_log. remember 400 as k eqn:Ek.
  assert (Hk : 0 < k) by (rewrite Ek; apply Nat.lt_0_succ). clear Ek.
  rewrite bind_unfold. cbn [history fst snd].
  destruct (build_log env h) as [text|]; cbn [ret fst].
  - intros H. injection H as <-. rewrite count_nl_join.
    + unfold last_items. rewrite length_skipn. lia.
    + apply Forall_skipn_. eapply splitlines_no_nl. apply le_n.
  - intros H. injection H as <-. cbn [count_char]. exact Hk.
Qed.

End Context.

Lemma repo_tree_at_most_220_lines_witness :
  count_char nl "/bin/sh: 1: git: not found" < 220.
Proof.
  apply (repo_tree_at_most_220_lines (default_cfg 3) env_no_git []).
  reflexivity.
Defined.

Lemma recent_diff_at_most_8000_chars_witness :
  (Z.of_nat (String.length "(no recent commits)") <= 8000)%Z.
Proof.
  apply (recent_diff_at_most_8000_chars (default_cfg 3) env_green []).
  reflexivity.
Defined.

Lemma log_tail_at_most_400_lines_witness :
  count_char nl ("b" ++ String nl "c") < 400.
Proof.
  apply (log_tail_at_most_400_lines env_green
           [EvLogOpen;
            EvBuild "make" ("b" ++ String nl ("c" ++ String nl ""))]).
  reflexivity.
Defined.

(** ** More on the diff extractor *)

Lemma take_drop (k : nat) (s : string) : take k s ++ drop k s = s.
Proof.
  revert s. induction k as [|k IH]; intros s; [now destruct s|].
  destruct s as [|c s]; [reflexivity|]. cbn [take drop].
  change (String c (take k s) ++ drop k s) with (String c (take k s ++ drop k s)).
  now rewrite IH.
Qed.

Lemma ends_line_snoc (pre : string) (c : ascii) :
  ends_line (pre ++ String c "") = Ascii.eqb c nl.
Proof.
  induction pre as [|d pre IH]; [reflexivity|].
  change (String d pre ++ String c "") with (String d (pre ++ String c "")).
  cbn [ends_line]. destruct (pre ++ String c "") eqn:E; [|exact IH].
  destruct pre; discriminate E.
Qed.

Lemma append_assoc (a b c : string) : (a ++ b) ++ c = a ++ b ++ c.
Proof.
  induction a as [|x a IH]; [reflexivity|].
  change ((String x a ++ b) ++ c) with (String x ((a ++ b) ++ c)).
  now rewrite IH.
Qed.

Lemma append_nil_r (a : string) : a ++ "" = a.
Proof.
  induction a as [|x a IH]; [reflexivity|].
  change (String x a ++ "") with (String x (a ++ "")). now rewrite IH.
Qed.

(** Where the search stops, a line starts. *)
Lemma search_from_line_start (p : list Re.atom) (s : string) :
  forall (pre0 : string) (i j : nat),
    Re.search_from p (ends_line pre0) s i = Some j ->
    Re.match_here p (ends_line (pre0 ++ take (j - i) s)) (drop (j - i) s) = true.
Proof.
  induction s as [|c s IH]; intros pre0 i j; cbn [Re.search_from].
  - destruct (Re.match_here p (ends_line pre0) "") eqn:E; intros H; [|discriminate].
    injection H as <-. rewrite Nat.sub_diag. cbn [take drop].
    now rewrite append_nil_r.
  - destruct (Re.match_here p (ends_line pre0) (String c s)) eqn:E; intros H.
    + injection H as <-. rewrite Nat.sub_diag. cbn [take drop].
      now rewrite append_nil_r.
    + pose proof (search_from_ge _ _ _ _ _ H) as Hle.
      rewrite <- (ends_line_snoc pre0 c) in H.
      apply IH in H.
      replace (j - i) with (S (j - S i)) by lia. cbn [take drop].
      rewrite append_assoc in H. exact H.
Qed.

Lemma has_nonspace_app (a b : string) :
  has_nonspace (a ++ b) = has_nonspace a || has_nonspace b.
Proof.
  induction a as [|c a IH]; [reflexivity|].
  change (String c a ++ b) with (String c (a ++ b)).
  cbn [has_nonspace]. now rewrite IH, orb_assoc.
Qed.

(** What [rstrip] removes is whitespace at the end. *)
Lemma rstrip_split (s : string) :
  exists ws, s = rstrip s ++ ws /\ has_nonspace ws = false.
Proof.
  induction s as [|c s (ws & Hs & Hw)]; [now exists ""|].
  cbn [rstrip]. destruct (is_empty (rstrip s)) eqn:Ee.
  - destruct (isspace c) eqn:Ec; cbn [andb].
    + exists (String c ws). destruct (rstrip s); [|discriminate Ee].
      cbn [append] in Hs. subst s. split; [reflexivity|].
      cbn [has_nonspace]. now rewrite Ec, Hw.
    + exists ws. split; [|exact Hw].
      change (String c (rstrip s) ++ ws) with (String c (rstrip s ++ ws)).
      now rewrite <- Hs.
  - cbn [andb]. exists ws. split; [|exact Hw].
    change (String c (rstrip s) ++ ws) with (String c (rstrip s ++ ws)).
    now rewrite <- Hs.
Qed.

Lemma rstrip_idem (s : string) : rstrip (rstrip s) = rstrip s.
Proof.
  induction s as [|c s IH]; [reflexivity|].
  cbn [rstrip]. destruct (is_empty (rstrip s) && isspace c) eqn:E; [reflexivity|].
  cbn [rstrip]. now rewrite IH, E.
Qed.

Lemma has_nonspace_rstrip (s : string) :
  has_nonspace (rstrip s) = has_nonspace s.
Proof.
  destruct (rstrip_split s) as (ws & Hs & Hw).
  rewrite Hs at 2. now rewrite has_nonspace_app, Hw, orb_false_r.
Qed.

(** X17: a diff the extractor returns is a piece of the response: it starts
    at the beginning of a line, runs to the end of the response but for
    trailing whitespace, and has itself no whitespace at either end. *)
Theorem extracted_diff_is_tail_of_text (text d : string) :
  extract_unified_diff text = Some d ->
  exists pre ws,
    text = pre ++ d ++ ws
    /\ ends_line pre = true
    /\ has_nonspace ws = false
    /\ strip d = d.
Proof.
  unfold extract_unified_diff, Re.search.
  destruct (Re.search_from header_re true text 0) as [start|] eqn:E; [|discriminate].
  intros H. injection H as <-.
  pose proof (search_from_line_start header_re text "" 0 start E) as Hm.
  rewrite Nat.sub_0_r in Hm. cbn [append] in Hm.
  destruct (ends_line (take start text)) eqn:El;
    [|rewrite match_header_not_bol in Hm; discriminate].
  destruct (match_header_shape _ _ Hm) as (rest & Hs & Hr).
  destruct (rstrip_split rest) as (ws & Hrest & Hw).
  exists (take start text), ws.
  rewrite Hs, strip_header by assumption.
  repeat split; [|exact El|exact Hw|].
  - rewrite <- (take_drop start text) at 1. rewrite Hs. f_equal.
    rewrite append_assoc. now rewrite <- Hrest.
  - rewrite strip_header by now rewrite has_nonspace_rstrip.
    now rewrite rstrip_idem.
Qed.

Lemma extracted_diff_is_tail_of_text_witness :
  exists pre ws,
    sample_diff
    = pre ++ ("--- a/build.gradle" ++ String nl
             ("+++ b/build.gradle" ++ String nl
             ("@@ -1 +1 @@" ++ String nl
             ("-old" ++ String nl "+new")))) ++ ws
    /\ ends_line pre = true
    /\ has_nonspace ws = false
    /\ strip ("--- a/build.gradle" ++ String nl
             ("+++ b/build.gradle" ++ String nl
             ("@@ -1 +1 @@" ++ String nl
             ("-old" ++ String nl "+new"))))
       = "--- a/build.gradle" ++ String nl
         ("+++ b/build.gradle" ++ String nl
         ("@@ -1 +1 @@" ++ String nl
         ("-old" ++ String nl "+new"))).
Proof.
  apply (extracted_diff_is_tail_of_text sample_diff). reflexivity.
Defined.

Lemma span_line_app (l r : string) :
  no_newline l = true -> span_line (l ++ String nl r) = (l, Some r).
Proof.
  induction l as [|c l IH]; intros H.
  - reflexivity.
  - cbn [no_newline] in H. apply andb_true_iff in H as [Hc Hl].
    apply negb_true_iff in Hc.
    change (String c l ++ String nl r) with (String c (l ++ String nl r)).
    cbn [span_line]. now rewrite Hc, (IH Hl).
Qed.

Lemma search_from_shift (p : list Re.atom) (s : string) :
  forall (b : bool) (i k : nat),
    Re.search_from p b s (i + k)
    = option_map (fun j => j + k) (Re.search_from p b s i).
Proof.
  induction s as [|c s IH]; intros b i k; cbn [Re.search_from].
  - now destruct (Re.match_here p b "").
  - destruct (Re.match_here p b (String c s)); [reflexivity|].
    apply (IH _ (S i) k).
Qed.

Lemma drop_app_length (l r : string) (j : nat) :
  drop (j + String.length l) (l ++ r) = drop j r.
Proof.
  induction l as [|c l IH].
  - cbn [String.length append]. now rewrite Nat.add_0_r.
  - change (String c l ++ r) with (String c (l ++ r)).
    cbn [String.length]. rewrite Nat.add_succ_r. cbn [drop]. exact IH.
Qed.

Lemma length_append (a b : string) :
  String.length (a ++ b) = String.length a + String.length b.
Proof.
  induction a as [|c a IH]; [reflexivity|].
  change (String c a ++ b) with (String c (a ++ b)).
  cbn [String.length]. now rewrite IH.
Qed.

(** X18: a first line that is not a [--- ] header line is skipped: the
    extractor gives the same result as on the rest of the response. *)
Theorem leading_line_is_skipped (l r : string) :
  no_newline l = true ->
  is_header "--- " l = false ->
  extract_unified_diff (l ++ String nl r) = extract_unified_diff r.
Proof.
  intros Hl Hh. unfold extract_unified_diff, Re.search.
  rewrite search_line, match_header, (span_line_app l r Hl), Hh. cbn [andb].
  assert (E : (match span_line r with
               | (_, Some _) => false
               | (_, None) => false
               end) = false) by now destruct (span_line r) as [? [?|]].
  rewrite E.
  replace (0 + String.length l + 1) with (0 + (String.length l + 1)) by lia.
  rewrite (search_from_shift header_re r true 0 (String.length l + 1)).
  destruct (Re.search_from header_re true r 0) as [start|]; [|reflexivity].
  cbn [option_map]. do 2 f_equal.
  replace (start + (String.length l + 1))
    with (start + String.length (l ++ String nl ""))
    by (rewrite length_append; cbn; lia).
  replace (l ++ String nl r) with ((l ++ String nl "") ++ r)
    by (rewrite append_assoc; reflexivity).
  apply drop_app_length.
Qed.

Lemma leading_line_is_skipped_witness :
  extract_unified_diff ("Here is the fix:" ++ String nl sample_patch)
  = extract_unified_diff sample_patch.
Proof.
  apply (leading_line_is_skipped "Here is the fix:" sample_patch); reflexivity.
Defined.

Lemma contains_drop (w : string) (k : nat) (s : string) :
  contains w (drop k s) = true -> contains w s = true.
Proof.
  revert s. induction k as [|k IH]; intros s H; [exact H|].
  destruct s as [|c s]; [exact H|]. cbn [drop] in H.
  cbn [contains]. rewrite (IH _ H). apply orb_true_r.
Qed.

(** X19: a response that nowhere holds the four characters [--- ] yields
    no diff. *)
Theorem no_marker_no_diff (text : string) :
  contains "--- " text = false -> extract_unified_diff text = None.
Proof.
  intros Hc. unfold extract_unified_diff, Re.search.
  destruct (Re.search_from header_re true text 0) as [start|] eqn:E; [|reflexivity].
  destruct (search_from_sound _ _ _ _ _ E) as [b Hb].
  destruct (match_header_shape _ _ Hb) as (rest & Hs & _).
  rewrite Nat.sub_0_r in Hs.
  pose proof (contains_prefix "--- " rest) as Hp. rewrite <- Hs in Hp.
  apply contains_drop in Hp. congruence.
Qed.

Lemma no_marker_no_diff_witness :
  extract_unified_diff "I cannot fix this." = None.
Proof. apply no_marker_no_diff. reflexivity. Defined.

(** ** The temporary patch file *)

Section TempFile.

Variable cfg : Config.
Variable env : Env.

(** X20: with its temporary file written, the patch applier never raises:
    failures of the child processes are caught, and on every path the last
    thing it does is to remove the file it first wrote the diff to. *)
Theorem temp_file_always_removed (diff : string) (h : list event) :
  exists applied mid,
    apply_patch cfg env diff h =
    (Ret applied,
     (EvTmpWrite (tmp_name env h) diff :: mid ++ [EvTmpUnlink (tmp_name env h)])%list).
Proof.
  destruct (apply_patch cfg env diff h) as [r tr] eqn:E.
  unfold apply_patch in E.
  apply bind_inv in E.
  destruct E as [(h0 & e1 & e2 & E1 & E & ->) | (e & E1 & _)]; [|discriminate E1].
  injection E1 as <- <-.
  apply bind_inv in E.
  destruct E as [(u & e1 & e3 & E1 & E & ->) | (e & E1 & _)]; [|discriminate E1].
  injection E1 as <-.
  apply finally_emit_inv in E. destruct E as (e4 & E & ->).
  apply try_except_inv in E.
  destruct E as [(a & E & ->) | (e & e5 & e6 & E & Eh & ->)]; subst e1.
  - exists a, e4. reflexivity.
  - apply bind_inv in Eh.
    destruct Eh as [(u' & e7 & e8 & _ & Eh & ->) | (e' & Eh & _)];
      [|discriminate Eh].
    unfold ret in Eh. injection Eh as <- <-.
    eexists false, _. reflexivity.
Qed.

End TempFile.

(** ** The prompt on the command line of the local model *)

Lemma json_escape_char_printable (c : ascii) :
  all_chars printable (json_escape_char c) = true.
Proof. destruct c as [[] [] [] [] [] [] [] []]; reflexivity. Qed.

Lemma all_chars_app (P : ascii -> bool) (a b : string) :
  all_chars P (a ++ b) = all_chars P a && all_chars P b.
Proof.
  induction a as [|c a IH]; [reflexivity|].
  change (String c a ++ b) with (String c (a ++ b)).
  cbn [all_chars]. now rewrite IH, andb_assoc.
Qed.

(** X21: whatever the prompt holds, its JSON form on the command line of the
    local model is made of printable ASCII only: no newline, no control
    character, no byte above 126. *)
Theorem json_dumps_printable (s : string) :
  all_chars printable (json_dumps s) = true.
Proof.
  unfold json_dumps. rewrite !all_chars_app.
  assert (H : all_chars printable (json_escape s) = true).
  { induction s as [|c s IH]; [reflexivity|].
    cbn [json_escape]. now rewrite all_chars_app, json_escape_char_printable, IH. }
  now rewrite H.
Qed.

Lemma json_escape_char_plain (c : ascii) :
  plain c = true -> json_escape_char c = String c "".
Proof. destruct c as [[] [] [] [] [] [] [] []]; intros H; first [reflexivity | discriminate H]. Qed.

(** X22: a prompt made of printable characters other than the double quote
    and the backslash is put on the command line as it is, between double
    quotes: dollar signs and backquotes are not escaped. *)
Theorem json_dumps_plain (s : string) :
  all_chars plain s = true -> json_dumps s = dq ++ s ++ dq.
Proof.
  intros H. unfold json_dumps. do 2 f_equal.
  induction s as [|c s IH]; [reflexivity|].
  cbn [all_chars] in H. apply andb_true_iff in H as [Hc Hs].
  cbn [json_escape]. now rewrite (json_escape_char_plain c Hc), (IH Hs).
Qed.

Lemma json_dumps_plain_witness :
  json_dumps "echo $(id) `id`" = dq ++ "echo $(id) `id`" ++ dq.
Proof. apply json_dumps_plain. reflexivity. Defined.

Lemma json_unescape_char (c : ascii) (t : string) :
  json_unescape (json_escape_char c ++ t) = String c (json_unescape t).
Proof. destruct c as [[] [] [] [] [] [] [] []]; reflexivity. Qed.

Lemma json_unescape_escape (s : string) : json_unescape (json_escape s) = s.
Proof.
  induction s as [|c s IH]; [reflexivity|].
  cbn [json_escape]. now rewrite json_unescape_char, IH.
Qed.

Lemma append_inv_head (a b c : string) : a ++ b = a ++ c -> b = c.
Proof.
  induction a as [|x a IH]; [auto|].
  change (String x a ++ b) with (String x (a ++ b)).
  change (String x a ++ c) with (String x (a ++ c)).
  intros H. injection H as H. auto.
Qed.

Lemma append_inv_tail (a b c : string) : a ++ c = b ++ c -> a = b.
Proof.
  revert b. induction a as [|x a IH]; intros b H.
  - destruct b as [|y b]; [reflexivity|].
    apply (f_equal String.length) in H.
    change (String y b ++ c) with (String y (b ++ c)) in H.
    cbn [append String.length] in H. rewrite length_append in H. lia.
  - destruct b as [|y b].
    + apply (f_equal String.length) in H.
      change (String x a ++ c) with (String x (a ++ c)) in H.
      cbn [append String.length] in H. rewrite length_append in H. lia.
    + change (String x a ++ c) with (String x (a ++ c)) in H.
      change (String y b ++ c) with (String y (b ++ c)) in H.
      injection H as -> H. f_equal. now apply IH.
Qed.

(** X23: the command line of the local model determines the prompt: two
    prompts that give the same command are the same prompt. *)
Theorem llama_cmd_injective (cfg : Config) (p1 p2 : string) :
  llama_cmd cfg p1 = llama_cmd cfg p2 -> p1 = p2.
Proof.
  unfold llama_cmd, json_dumps. intros H.
  do 6 apply append_inv_head in H.
  apply append_inv_tail, append_inv_head, append_inv_tail in H.
  rewrite <- (json_unescape_escape p1), <- (json_unescape_escape p2).
  now rewrite H.
Qed.

Lemma llama_cmd_injective_witness : "fix the build" = "fix the build".
Proof.
  apply (llama_cmd_injective (default_cfg 3) "fix the build" "fix the build").
  reflexivity.
Defined.

(** ** Project detection of the bootstrapper *)


Lemma both_spec (F : bool -> bool) :
  Bootstrapper.both F = true -> forall b, F b = true.
Proof.
  unfold Bootstrapper.both. intros H b.
  apply andb_true_iff in H as [Ht Hf]. now destruct b.
Qed.

Lemma detect_types_from (t : Bootstrapper.Tree) :
  Bootstrapper.detect_types t =
  Bootstrapper.detect_from
    (Bootstrapper.path_exists t "gradlew"
     || Bootstrapper.exists_any t
          ["android/**/gradlew"; "**/build.gradle*"; "**/settings.gradle*"])
    (Bootstrapper.path_exists t "CMakeLists.txt"
     || Bootstrapper.exists_any t ["**/CMakeLists.txt"])
    (Bootstrapper.path_exists t "package.json")
    (Bootstrapper.path_exists t "setup.py"
     || Bootstrapper.path_exists t "pyproject.toml")
    (Bootstrapper.path_exists t "Cargo.toml")
    (Bootstrapper.exists_any t ["*.sln"; "**/*.csproj"; "**/*.fsproj"])
    (Bootstrapper.path_exists t "pom.xml")
    (Bootstrapper.path_exists t "pubspec.yaml")
    (Bootstrapper.path_exists t "go.mod").
Proof. reflexivity. Qed.


Lemma detect_from_agrees (c1 c2 c3 c4 c5 c6 c7 c8 c9 : bool) :
  Bootstrapper.agrees (Bootstrapper.detect_from c1 c2 c3 c4 c5 c6 c7 c8 c9)
    c1 c2 c3 c4 c5 c6 c7 c8 c9 = true.
Proof.
  revert c9. apply both_spec. revert c8. apply both_spec.
  revert c7. apply both_spec. revert c6. apply both_spec.
  revert c5. apply both_spec. revert c4. apply both_spec.
  revert c3. apply both_spec. revert c2. apply both_spec.
  revert c1. apply both_spec. vm_compute. reflexivity.
Qed.



(** X25: each project type is reported exactly when its marker is found,
    and "unknown" exactly when no type is. *)
Theorem detect_types_tests (t : Bootstrapper.Tree) :
  let found ty := Bootstrapper.mem ty (Bootstrapper.detect_types t) in
  found "android"
    = (Bootstrapper.path_exists t "gradlew"
       || Bootstrapper.exists_any t
            ["android/**/gradlew"; "**/build.gradle*"; "**/settings.gradle*"])
  /\ found "cmake"
     = (Bootstrapper.path_exists t "CMakeLists.txt"
        || Bootstrapper.exists_any t ["**/CMakeLists.txt"])
  /\ found "node" = Bootstrapper.path_exists t "package.json"
  /\ found "python"
     = (Bootstrapper.path_exists t "setup.py"
        || Bootstrapper.path_exists t "pyproject.toml")
  /\ found "rust" = Bootstrapper.path_exists t "Cargo.toml"
  /\ found "dotnet"
     = Bootstrapper.exists_any t ["*.sln"; "**/*.csproj"; "**/*.fsproj"]
  /\ found "maven" = Bootstrapper.path_exists t "pom.xml"
  /\ found "flutter" = Bootstrapper.path_exists t "pubspec.yaml"
  /\ found "go" = Bootstrapper.path_exists t "go.mod"
  /\ found "unknown"
     = negb (found "android" || found "cmake" || found "node" || found "python"
             || found "rust" || found "dotnet" || found "maven"
             || found "flutter" || found "go").
Proof.
  cbn zeta. rewrite detect_types_from.
  match goal with |- context [Bootstrapper.detect_from ?a ?b ?c ?d ?e ?f ?g ?i ?j] =>
    pose proof (detect_from_agrees a b c d e f g i j) as H;
    set (l := Bootstrapper.detect_from a b c d e f g i j) in *
  end.
  unfold Bootstrapper.agrees in H.
  repeat (apply andb_true_iff in H; destruct H as [H ?]).
  repeat match goal with
         | E : Bool.eqb _ _ = true |- _ => apply Bool.eqb_prop in E
         end.
  repeat split; try assumption.
  congruence.
Qed.

Example detect_sample_tree :
  Bootstrapper.main Bootstrapper.sample_tree
  = (Ret tt,
     [("ai-autobuilder-android.yml", "./gradlew assembleDebug --stacktrace");
      ("ai-autobuilder-cmake.yml", "cmake -S . -B build && cmake --build build -j")]).
Proof. reflexivity. Qed.

(** ** Output that is no text *)

Example decode_examples :
  utf8_decode ("caf" ++ String (ascii_of_nat 233) "") = None
  /\ utf8_decode ("caf" ++ String (ascii_of_nat 195) (String (ascii_of_nat 169) ""))
     = Some ("caf" ++ String (ascii_of_nat 233) "")
  /\ universal_newlines ("a" ++ String cr (String nl ("b" ++ String cr "c")))
     = "a" ++ String nl ("b" ++ String nl "c").
Proof. repeat split; reflexivity. Qed.

(** A byte that does not decode is left out of the log that is read back,
    so that the byte 0x85 inside it makes no line break: one line. *)
Example log_tail_skips_bytes :
  tail_build_log env_green
    [EvLogOpen;
     EvBuild "make" ("caf" ++ String (ascii_of_nat 233)
                       (" a" ++ String (ascii_of_nat 133) ("b" ++ String nl "")))]
  = (Ret "caf ab", []).
Proof. reflexivity. Qed.

(** [int] does not skip the separators 28 to 31, and refuses more than 4300
    digits. *)
Example py_int_separators :
  py_int (String (ascii_of_nat 28) "5") = None
  /\ strip (String (ascii_of_nat 28) "5") = "5"
  /\ py_int (String (ascii_of_nat 133) "5") = Some 5%Z
  /\ py_int (String (ascii_of_nat 11) ("5" ++ String (ascii_of_nat 12) "")) = Some 5%Z.
Proof. repeat split; reflexivity. Qed.

Lemma silent_bind_never {A B} (P : event -> bool) (m : M A) (f : A -> M B) :
  silent P m -> never_returns m -> silent P (bind m f).
Proof.
  intros Hs Hn h. rewrite bind_unfold. specialize (Hs h).
  destruct (Hn h) as [e He].
  destruct (m h) as [[a|e'] e1]; cbn [fst snd] in *; [discriminate He | exact Hs].
Qed.

Section NoText.

Variable cfg : Config.
Variable env : Env.

(** There is a last commit: [git log] prints a line. *)
Hypothesis has_commit :
  forall h p,
    sh env h (Some (PROJECT_ROOT cfg)) "git log --oneline -n 1 || true" = Some p ->
    exists t, decode env (merged p) = Some t /\ has_nonspace t = true.

(** What [git diff] prints is no text in the locale's encoding. *)
Hypothesis diff_is_no_text :
  forall h p,
    sh env h (Some (PROJECT_ROOT cfg))
       "git diff --unified=2 -M -C HEAD~5..HEAD || true" = Some p ->
    decode env (merged p) = None.

Lemma get_recent_diff_never_returns : never_returns (get_recent_diff cfg env).
Proof.
  intros h. unfold get_recent_diff. rewrite bind_unfold, run_unfold.
  destruct (sh env h (Some (PROJECT_ROOT cfg)) "git log --oneline -n 1 || true")
    as [p|] eqn:El; [|cbn; eauto].
  destruct (has_commit _ _ El) as (t & Hd & Ht).
  unfold captured_text. rewrite Hd. cbn [option_map fst snd stdout cp_stdout].
  rewrite <- (has_nonspace_universal_newlines _ t (le_n _)) in Ht.
  destruct (strip_nonspace_head _ Ht) as (c & r & -> & _).
  cbn [String.eqb]. rewrite bind_unfold, run_unfold.
  destruct (sh env _ (Some (PROJECT_ROOT cfg))
              "git diff --unified=2 -M -C HEAD~5..HEAD || true") as [q|] eqn:Ed;
    [|cbn; eauto].
  unfold captured_text. rewrite (diff_is_no_text _ _ Ed). cbn. eauto.
Qed.

Lemma fix_loop_no_query (fuel : nat) (attempts : Z) :
  silent is_query (fix_loop cfg env fuel attempts).
Proof.
  destruct fuel as [|fuel]; cbn [fix_loop];
    destruct (attempts <? MAX_ATTEMPTS cfg)%Z; try (silent_auto; fail).
  do 2 (apply silent_bind; [quiet_part|intros ?]).
  apply silent_bind_never; [quiet_part | apply get_recent_diff_never_returns].
Qed.

(** X26: when the repository has a commit and what [git diff] prints is no
    text in the locale's encoding (a changed file in another encoding), the
    decoding of the captured output fails in every attempt before the
    prompt is built: the run makes no model query at all. *)
Theorem no_query_when_diff_is_no_text (h : list event) :
  queries (snd (main cfg env h)) = 0.
Proof.
  apply silent_queries. unfold main.
  do 2 (apply silent_bind; [quiet_part|intros ?]).
  destruct (_ =? 0)%Z; [silent_auto|].
  apply silent_bind; [apply fix_loop_no_query|intros r].
  destruct r; silent_auto.
Qed.

End NoText.

Lemma no_query_when_diff_is_no_text_witness :
  queries (snd (main (default_cfg 3) env_latin1_diff [])) = 0.
Proof.
  apply (no_query_when_diff_is_no_text (default_cfg 3) env_latin1_diff).
  - intros h p H. cbn in H. injection H as <-. eexists. split; reflexivity.
  - intros h p H. cbn in H. injection H as <-. reflexivity.
Defined.

(** The same run, step by step: the first build fails, the first attempt
    collects the file list, and the decoding of the diff ends the run. *)
Example run_latin1_diff :
  main (default_cfg 3) env_latin1_diff [] =
  (Raise (UnicodeDecodeError ("+caf" ++ String (ascii_of_nat 233) (String nl ""))),
   [EvPrint "== AI Autobuilder (with OpenAI→llama fallback) ==";
    EvPrint "Project: /work";
    EvPrint "Provider: openai, Model: gpt-4o-mini, Fallback: llama";
    EvLogOpen;
    EvBuild "./gradlew assembleDebug --stacktrace"
            ("> Task :app:compileDebugKotlin" ++ String nl "");
    EvPrint (String nl "== Attempt 1/3 ==");
    EvRun "git ls-files || true" true;
    EvRun "git log --oneline -n 1 || true" true;
    EvRun "git diff --unified=2 -M -C HEAD~5..HEAD || true" true]).
Proof. reflexivity. Qed.
